(** * Replay Tab Auto-Renamer: the session-sync and naming pipeline

    A shallow embedding of [packages/frontend/src/index.ts] (the Vue
    component [TabRenamer]) and, where it differs, of the stand-alone
    variant of the same plugin that keeps its data in [localStorage].

    Strings.  The raw request handed to [parseRawRequest] is the result of
    [atob], a binary string: each of its characters has a code in 0..255.
    Rocq's [string] (a list of 8-bit [ascii]) is exactly that, so method,
    path and host, which are cut out of it, are [string]s too.  Session ids
    and names are only ever compared and copied; they are [string]s as
    well, and so is the string a user function returns.  [String.length]
    is the JavaScript [.length] on such strings.

    Collaborators.  The replay API, the GraphQL endpoint, the token in
    [localStorage], the evaluation of user code and the failures of the
    storage are answers of an [Environment]; the plugin's own state, the
    content of the storage and the calls made so far are a [State].  The
    console is not modelled. *)

From Stdlib Require Import String Ascii List Bool Arith ZArith Lia.
Import ListNotations.
Open Scope list_scope.
Open Scope string_scope.

(** ** Characters *)

Definition code (c : ascii) : nat := nat_of_ascii c.

Definition in_range (lo hi : nat) (c : ascii) : bool :=
  Nat.leb lo (code c) && Nat.leb (code c) hi.

Definition code_is (n : nat) (c : ascii) : bool := Nat.eqb (code c) n.

(** [\s] of a regular expression and the characters [String.prototype.trim]
    removes: TAB, LF, VT, FF, CR, SPACE and NBSP (the others lie above 255). *)
Definition is_space (c : ascii) : bool :=
  in_range 9 13 c || code_is 32 c || code_is 160 c.

(** The characters [.] of a regular expression does not match. *)
Definition is_line_terminator (c : ascii) : bool :=
  code_is 10 c || code_is 13 c.

(** The class [[?#]]. *)
Definition is_query_mark (c : ascii) : bool :=
  code_is 63 c || code_is 35 c.

(** The class [[a-zA-Z0-9\/\-\_\.]]. *)
Definition is_name_char (c : ascii) : bool :=
  in_range 97 122 c || in_range 65 90 c || in_range 48 57 c
  || code_is 47 c || code_is 45 c || code_is 95 c || code_is 46 c.

(** [toLowerCase] on one character of code 0..255: A-Z and the Latin-1
    capitals (all of U+00C0..U+00DE but the multiplication sign). *)
Definition lower_char (c : ascii) : ascii :=
  if in_range 65 90 c || (in_range 192 222 c && negb (code_is 215 c))
  then ascii_of_nat (code c + 32)
  else c.

(** ** String operations of the JavaScript runtime *)

Fixpoint toLowerCase (s : string) : string :=
  match s with
  | "" => ""
  | String c r => String (lower_char c) (toLowerCase r)
  end.

Fixpoint trimStart (s : string) : string :=
  match s with
  | "" => ""
  | String c r => if is_space c then trimStart r else s
  end.

Fixpoint trimEnd (s : string) : string :=
  match s with
  | "" => ""
  | String c r =>
      match trimEnd r with
      | "" => if is_space c then "" else String c ""
      | r' => String c r'
      end
  end.

Definition trim (s : string) : string := trimEnd (trimStart s).

(** Truthiness of a string: [!s] holds of the empty string only. *)
Definition truthy (s : string) : bool := negb (s =? "").

Definition startsWith (s p : string) : bool := prefix p s.

(** [s.substring(n)] for [0 <= n]. *)
Fixpoint substring_from (n : nat) (s : string) : string :=
  match n, s with
  | 0, _ => s
  | S _, "" => ""
  | S n', String _ r => substring_from n' r
  end.

(** [s.substring(0, n)]: a negative or NaN end counts as 0, an end beyond
    the string as its length. *)
Definition substring_to (n : Z) (s : string) : string :=
  substring 0 (Z.to_nat n) s.

Fixpoint has_line_terminator (s : string) : bool :=
  match s with
  | "" => false
  | String c r => is_line_terminator c || has_line_terminator r
  end.

(** [s.replace(/[?#].*$/, '')].  There is no [m] or [s] flag: [$] is the end
    of the input and [.] stops at a line terminator, so the expression
    matches at the first [?] or [#] that has no line terminator after it,
    and takes the rest of the string. *)
Fixpoint replace_query (s : string) : string :=
  match s with
  | "" => ""
  | String c r =>
      if is_query_mark c && negb (has_line_terminator r) then ""
      else String c (replace_query r)
  end.

(** [s.replace(/[^a-zA-Z0-9\/\-\_\.]/g, '')]. *)
Fixpoint replace_non_name (s : string) : string :=
  match s with
  | "" => ""
  | String c r =>
      if is_name_char c then String c (replace_non_name r)
      else replace_non_name r
  end.

(** [s.replace(/\r\n/g, '\n')]. *)
Fixpoint replace_crlf (s : string) : string :=
  match s with
  | "" => ""
  | String c r =>
      match r with
      | String d r' =>
          if code_is 13 c && code_is 10 d
          then String d (replace_crlf r')
          else String c (replace_crlf r)
      | "" => String c ""
      end
  end.

(** [s.replace(/\r/g, '\n')]. *)
Fixpoint replace_cr (s : string) : string :=
  match s with
  | "" => ""
  | String c r =>
      String (if code_is 13 c then ascii_of_nat 10 else c) (replace_cr r)
  end.

(** [s.split('\n')]: never empty, [""] gives [[""]]. *)
Fixpoint split_lf (s : string) : list string :=
  match s with
  | "" => [""]
  | String c r =>
      if code_is 10 c then "" :: split_lf r
      else match split_lf r with
           | p :: ps => String c p :: ps
           | [] => [String c ""]
           end
  end.

(** [s.split(/\s+/)]: every maximal run of white space separates two
    pieces; [in_run] tells that the previous character was white space. *)
Fixpoint split_spaces_from (in_run : bool) (s : string) : list string :=
  match s with
  | "" => [""]
  | String c r =>
      if is_space c then
        if in_run then split_spaces_from true r
        else "" :: split_spaces_from true r
      else match split_spaces_from false r with
           | p :: ps => String c p :: ps
           | [] => [String c ""]
           end
  end.

Definition split_spaces (s : string) : list string :=
  split_spaces_from false s.

(** ** The default naming algorithm (the tail of [generateTabName]) *)

Definition maxLength : Z := 30.

Definition cleanPath (path : string) : string :=
  replace_non_name (replace_query path).

Definition defaultTabName (method path : string) : string :=
  let cleanPath := cleanPath path in
  let tabName := method ++ " " ++ cleanPath in
  if (maxLength <? Z.of_nat (String.length tabName))%Z then
    let truncated :=
      substring_to (maxLength - Z.of_nat (String.length method) - 4) cleanPath
      ++ "..." in
    method ++ " " ++ truncated
  else tabName.

(** What the specification's words say the cleaned path is: cut at the
    first [?] or [#], then drop the characters outside the class. *)
Fixpoint cut_at_query_mark (s : string) : string :=
  match s with
  | "" => ""
  | String c r => if is_query_mark c then "" else String c (cut_at_query_mark r)
  end.

Definition spec_cleanPath (path : string) : string :=
  replace_non_name (cut_at_query_mark path).

Definition endsWith (s suffix : string) : bool :=
  substring_from (String.length s - String.length suffix) s =? suffix.

(** ** The request parser, [parseRawRequest] *)

Record ParsedRequest := mkParsedRequest {
  method : string;
  path : string;
  host : string
}.

(** The first loop: [requestLine] is the first line whose [trim()] is not
    empty, trimmed; [''] when there is none. *)
Fixpoint find_request_line (lines : list string) : string :=
  match lines with
  | [] => ""
  | line :: rest =>
      if truthy (trim line) then trim line else find_request_line rest
  end.

(** The second loop: the first line that, trimmed and lower-cased, starts
    with [host:] gives the host; [''] when there is none. *)
Fixpoint find_host (lines : list string) : string :=
  match lines with
  | [] => ""
  | line :: rest =>
      let trimmedLine := trim line in
      if startsWith (toLowerCase trimmedLine) "host:"
      then trim (substring_from 5 trimmedLine)
      else find_host rest
  end.

Definition normalize (raw : string) : string :=
  replace_cr (replace_crlf raw).

Definition lines_of (raw : string) : list string :=
  split_lf (normalize raw).

(** [None] is the [null] of the source.  [raw] is a string ([atob] returns
    nothing else), so [typeof raw !== 'string'] is false, and none of the
    string operations of the body throws: the [catch] that turns an error
    into [null] has nothing to catch. *)
Definition parseRawRequest (raw : string) : option ParsedRequest :=
  if negb (truthy raw) then None
  else
    let lines := lines_of raw in
    if Nat.eqb (List.length lines) 0 then None
    else
      let requestLine := find_request_line lines in
      if negb (truthy requestLine) then None
      else
        let parts := split_spaces requestLine in
        if Nat.ltb (List.length parts) 2 then None
        else
          let method := nth 0 parts "" in
          let path := nth 1 parts "" in
          let host := find_host lines in
          if negb (truthy method) || negb (truthy path) then None
          else Some (mkParsedRequest method path host).

(** ** Values that cross the plugin's boundary *)

(** What evaluating user code can return: a string or anything else. *)
Inductive JsValue :=
| VString (s : string)
| VOther.

(** A thrown value.  [ThrownError] is an [Error] object with its message;
    [ThrownNullish] is [null] or [undefined]; [ThrownValue] is any other
    value, with what a template literal makes of its [.message]
    (["undefined"] for most). *)
Inductive Thrown :=
| ThrownError (message : string)
| ThrownNullish
| ThrownValue (message : string).

(** The [.message] of a value thrown by user code, by what a template
    literal makes of it: a text, or nothing, when the conversion to a
    string throws, as it does on a [Symbol] ([typeError] is what it
    throws, a [TypeError] for a [Symbol]). *)
Inductive MessageText :=
| Text (text : string)
| Unconvertible (typeError : Thrown).

(** What user code can throw: an [Error] object, [null] or [undefined],
    or any other value, the last with its [.message] ([Text "undefined"]
    for most). *)
Inductive UserThrown :=
| UserError (message : MessageText)
| UserNullish
| UserValue (message : MessageText).

(** How a call ends: with a value, or with a thrown value of type [E]. *)
Inductive Outcome (E A : Type) :=
| Normal (a : A)
| Throw (error : E).
Arguments Normal {E A} a.
Arguments Throw {E A} error.

(** The outcome of the plugin's own calls and of the host's. *)
Definition Completion (A : Type) : Type := Outcome Thrown A.

Record Session := mkSession {
  id : string;
  name : string
}.

(** The [raw] field of an active entry, by what the code can do with it:
    falsy (absent, [null] or ['']), refused by [atob], given with the
    exception [atob] throws on it, or a base64 text, given with the binary
    string [atob] makes of it. *)
Inductive RawField :=
| RawMissing
| RawInvalid (error : Thrown)
| RawBase64 (decoded : string).

(** [activeEntry]; [session_name] is [entry.session?.name], [None] when
    the session or its name is missing. *)
Record Entry := mkEntry {
  raw : RawField;
  session_name : option string
}.

(** The body of a GraphQL response: [response.json()] rejects or gives a
    value on which [data.data] throws, or else
    [data.data?.replaySession?.activeEntry], [None] for [undefined]/[null]. *)
Inductive Body :=
| BodyMalformed
| BodyData (activeEntry : option Entry).

Record Response := mkResponse {
  ok : bool;
  json : Body
}.

Record PluginStorage := mkPluginStorage {
  knownSessions : list string;
  customNamingFunction : string;
  pollingInterval : Z
}.

(** What [sdk.storage.get()] holds: a plain object, each of the three keys
    present with the right type or not, or anything else. *)
Inductive StoredValue :=
| StoredOther
| StoredObject (knownSessions : option (list string))
               (customNamingFunction : option string)
               (pollingInterval : option Z).

(** The calls the plugin makes to its collaborators. *)
Inductive Call :=
| GetSessions
| PostGraphql (sessionId : string)
| RunUserFunction (source method path host : string)
| RenameSession (sessionId newName : string)
| StorageGet
| StorageSet (value : PluginStorage).

(** The collaborators.  Each answer may depend on the calls made so far
    (most recent first), which is all the plugin can make them depend on.
    [authentication] is the access token read from [localStorage]
    ([None]: no item, not JSON, or no token in it); [userFunction] is
    [new Function('method', 'path', 'host', source)] applied to its three
    arguments; [storageGetError] and [storageSetError] tell whether the
    storage call rejects. *)
Record Environment := mkEnvironment {
  sdkInstance : bool;
  getSessions : list Call -> Completion (option (list Session));
  authentication : list Call -> option string;
  fetch : list Call -> string -> Completion Response;
  renameSession : list Call -> string -> string -> Completion unit;
  userFunction :
    list Call -> string -> string -> string -> string
    -> Outcome UserThrown JsValue;
  storageGetError : list Call -> option Thrown;
  storageSetError : list Call -> PluginStorage -> option Thrown
}.

(** The messages handed to [addLog], one constructor per template.  The
    time stamp [addLog] puts in front is left out. *)
Inductive LogMessage :=
| LogSdkNotAvailable
| LogChecking
| LogNoSessions
| LogCounts (total known new : nat)
| LogNoNewSessions
| LogProcessing (sessionId : string)
| LogNoDetails (sessionId : string)
| LogCannotParse (sessionId : string)
| LogAlreadyCorrect (sessionId : string)
| LogRenamed (sessionId newName : string)
| LogRequest (method host path : string)
| LogSessionError (sessionId : string) (error : Thrown)
| LogSaved (size : nat)
| LogRenamedCount (renamedCount : nat)
| LogCycleError (error : Thrown)
| LogCustomFunctionError (errorMessage : string)
| LogUsingDefault
| LogStorageCleared.

(** ** State *)

(** The refs of the component, the storage area of the host, and the
    calls made so far (most recent first). *)
Record State := mkState {
  logsEnabled : bool;
  activityLogs : list LogMessage;
  namingFunction : string;
  sessionsCount : nat;
  knownCount : nat;
  newCount : nat;
  storage : StoredValue;
  history : list Call
}.

Definition set_activityLogs (logs : list LogMessage) (st : State) : State :=
  mkState (logsEnabled st) logs (namingFunction st) (sessionsCount st)
          (knownCount st) (newCount st) (storage st) (history st).

Definition set_counts (total known new : nat) (st : State) : State :=
  mkState (logsEnabled st) (activityLogs st) (namingFunction st) total
          known new (storage st) (history st).

Definition set_storage (v : StoredValue) (st : State) : State :=
  mkState (logsEnabled st) (activityLogs st) (namingFunction st)
          (sessionsCount st) (knownCount st) (newCount st) v (history st).

Definition record_call (c : Call) (st : State) : State :=
  mkState (logsEnabled st) (activityLogs st) (namingFunction st)
          (sessionsCount st) (knownCount st) (newCount st) (storage st)
          (c :: history st).

(** ** Computations: state passing with exceptions

    The cycle is asynchronous in the source; every [await] is taken here
    as a plain call, so one cycle runs from start to end without another
    one in between. *)

(** A computation that throws values of type [E]. *)
Definition Computation (E A : Type) : Type := State -> Outcome E A * State.

Definition M (A : Type) : Type := State -> Completion A * State.

Definition ret {E A} (a : A) : Computation E A := fun st => (Normal a, st).

Definition throw {E A} (error : E) : Computation E A :=
  fun st => (Throw error, st).

Definition bind {E A B} (m : Computation E A) (k : A -> Computation E B)
  : Computation E B :=
  fun st =>
    match m st with
    | (Normal a, st') => k a st'
    | (Throw error, st') => (Throw error, st')
    end.

(** [try { m } catch (error) { handler }]. *)
Definition try_catch {E F A} (m : Computation E A)
           (handler : E -> Computation F A) : Computation F A :=
  fun st =>
    match m st with
    | (Normal a, st') => (Normal a, st')
    | (Throw error, st') => handler error st'
    end.

Notation "x <- m ;; k" := (bind m (fun x => k))
  (at level 61, m at next level, right associativity).
Notation "m ;; k" := (bind m (fun _ => k))
  (at level 61, right associativity).

(** A call to a collaborator: noted in the history, answered from the
    history before it. *)
Definition call {E A} (c : Call) (answer : list Call -> Outcome E A)
  : Computation E A :=
  fun st => (answer (history st), record_call c st).

(** ** JavaScript [Set] of strings: its elements in insertion order *)

Definition has (s : list string) (x : string) : bool :=
  existsb (String.eqb x) s.

Fixpoint new_Set (l : list string) : list string :=
  match l with
  | [] => []
  | x :: r => x :: filter (fun y => negb (String.eqb x y)) (new_Set r)
  end.

Definition LF : string := String (ascii_of_nat 10) "".
Definition CRLF : string := String (ascii_of_nat 13) LF.

Section TabRenamer.

Variable env : Environment.

(** *** Storage *)

Definition defaultStorage : PluginStorage := mkPluginStorage [] "" 3000.

Definition storage_get : M StoredValue :=
  fun st =>
    match storageGetError env (history st) with
    | Some error => (Throw error, record_call StorageGet st)
    | None => (Normal (storage st), record_call StorageGet st)
    end.

Definition storage_set (value : PluginStorage) : M unit :=
  fun st =>
    match storageSetError env (history st) value with
    | Some error => (Throw error, record_call (StorageSet value) st)
    | None =>
        (Normal tt,
         set_storage
           (StoredObject (Some (knownSessions value))
                         (Some (customNamingFunction value))
                         (Some (pollingInterval value)))
           (record_call (StorageSet value) st))
    end.

Definition getStorage : M PluginStorage :=
  try_catch
    (if negb (sdkInstance env) then ret defaultStorage
     else
       stored <- storage_get ;;
       match stored with
       | StoredObject known custom interval =>
           ret (mkPluginStorage
                  (match known with Some l => l | None => [] end)
                  (match custom with Some s => s | None => "" end)
                  (match interval with Some n => n | None => 3000%Z end))
       | StoredOther => ret defaultStorage
       end)
    (fun _ => ret defaultStorage).

Definition saveStorage (value : PluginStorage) : M unit :=
  try_catch
    (if negb (sdkInstance env) then ret tt else storage_set value)
    (fun _ => ret tt).

Definition getKnownSessions : M (list string) :=
  stored <- getStorage ;;
  ret (new_Set (knownSessions stored)).

Definition saveKnownSessions (sessions : list string) : M unit :=
  stored <- getStorage ;;
  saveStorage (mkPluginStorage sessions (customNamingFunction stored)
                               (pollingInterval stored)).

Definition clearKnownSessions : M unit :=
  stored <- getStorage ;;
  saveStorage (mkPluginStorage [] (customNamingFunction stored)
                               (pollingInterval stored)).

(** *** Log and counters *)

Definition addLog (message : LogMessage) : M unit :=
  fun st =>
    if negb (logsEnabled st) then (Normal tt, st)
    else
      let logs := message :: activityLogs st in
      (Normal tt,
       set_activityLogs
         (if Nat.ltb 50 (List.length logs) then firstn 50 logs else logs) st).

Definition updateCounts (total known newCountValue : nat) : M unit :=
  fun st => (Normal tt, set_counts total known newCountValue st).

(** *** The name generator *)

(** [host || '']. *)
Definition host_or_empty (host : option string) : string :=
  match host with
  | Some h => if truthy h then h else ""
  | None => ""
  end.

(** The [try] block: [Some name] is [return name], [None] is falling out
    of the block; what it throws is what the user code throws. *)
Definition tryCustomFunction (method path : string) (host : option string)
  : Computation UserThrown (option string) :=
  fun st =>
    let customFunction := namingFunction st in
    if truthy (trim customFunction) then
      (result <- call (RunUserFunction customFunction method path
                                       (host_or_empty host))
                      (fun h => userFunction env h customFunction method path
                                             (host_or_empty host)) ;;
       match result with
       | VString s => if truthy (trim s) then ret (Some (trim s)) else ret None
       | VOther => ret None
       end) st
    else (Normal None, st).

(** [`${message}`]: the text of a message inside a template literal. *)
Definition templateText (message : MessageText) : Completion string :=
  match message with
  | Text text => Normal text
  | Unconvertible typeError => Throw typeError
  end.

(** [error instanceof Error ? error.message : 'Unknown error'], as the
    template literal of the next line renders it. *)
Definition errorMessage (error : UserThrown) : Completion string :=
  match error with
  | UserError message => templateText message
  | _ => Normal "Unknown error"
  end.

(** The [catch] block builds its first message before it calls [addLog]:
    when that throws, nothing is logged and the error leaves the
    function. *)
Definition generateTabName (method path : string) (host : option string)
  : M string :=
  returned <- try_catch
                (tryCustomFunction method path host)
                (fun error =>
                   match errorMessage error with
                   | Normal message =>
                       addLog (LogCustomFunctionError message) ;;
                       addLog LogUsingDefault ;;
                       ret None
                   | Throw typeError => throw typeError
                   end) ;;
  match returned with
  | Some tabName => ret tabName
  | None => ret (defaultTabName method path)
  end.

(** *** Session details *)

Definition fallbackEntry (sessionId : string) : Entry :=
  mkEntry
    (RawBase64 ("GET /api/fallback HTTP/1.1" ++ LF ++ "Host: localhost"
                ++ LF ++ LF))
    (Some ("Session " ++ sessionId)).

(** Reading the token: [JSON.parse] of the item and
    [if (!accessToken) throw ...]. *)
Definition read_accessToken : M string :=
  fun st =>
    match authentication env (history st) with
    | Some token =>
        if truthy token then (Normal token, st)
        else (Throw (ThrownError "Token manquant"), st)
    | None => (Throw (ThrownError "Token manquant"), st)
    end.

(** The inner [try]: [Some entry] is [return entry], [None] is reaching
    the fallback below it. *)
Definition queryActiveEntry (sessionId : string) : M (option (option Entry)) :=
  try_catch
    (response <- call (PostGraphql sessionId)
                      (fun h => fetch env h sessionId) ;;
     if ok response then
       match json response with
       | BodyMalformed => throw (ThrownError "malformed response")
       | BodyData activeEntry => ret (Some activeEntry)
       end
     else ret None)
    (fun _ => ret None).

Definition getSessionDetails (sessionId : string) : M (option Entry) :=
  try_catch
    (if negb (sdkInstance env) then ret None
     else
       _ <- read_accessToken ;;
       answered <- queryActiveEntry sessionId ;;
       match answered with
       | Some activeEntry => ret activeEntry
       | None => ret (Some (fallbackEntry sessionId))
       end)
    (fun _ => ret None).

(** *** The sync cycle *)

(** [atob(entry.raw)], called on a field that is not falsy. *)
Definition atob (r : RawField) : M string :=
  match r with
  | RawBase64 decoded => ret decoded
  | RawInvalid error => throw error
  | RawMissing => ret ""
  end.

(** [entry.session?.name || session.name]. *)
Definition currentNameOf (entry : Entry) (session : Session) : string :=
  match session_name entry with
  | Some n => if truthy n then n else name session
  | None => name session
  end.

(** The body of the inner [try] for one session; the result is
    [renamedCount] after it.  The 100 ms pause at its end is not
    modelled. *)
Definition processSession (session : Session) (renamedCount : nat) : M nat :=
  addLog (LogProcessing (id session)) ;;
  entry <- getSessionDetails (id session) ;;
  match entry with
  | None => addLog (LogNoDetails (id session)) ;; ret renamedCount
  | Some entry =>
      match raw entry with
      | RawMissing => addLog (LogNoDetails (id session)) ;; ret renamedCount
      | _ =>
          let currentName := currentNameOf entry session in
          decoded <- atob (raw entry) ;;
          match parseRawRequest decoded with
          | None => addLog (LogCannotParse (id session)) ;; ret renamedCount
          | Some requestInfo =>
              newName <- generateTabName (method requestInfo)
                                         (path requestInfo) None ;;
              if String.eqb currentName newName then
                addLog (LogAlreadyCorrect (id session)) ;; ret renamedCount
              else
                call (RenameSession (id session) newName)
                     (fun h => renameSession env h (id session) newName) ;;
                addLog (LogRenamed (id session) newName) ;;
                addLog (LogRequest (method requestInfo) (host requestInfo)
                                   (path requestInfo)) ;;
                ret (S renamedCount)
          end
      end
  end.

(** One turn of the loop: the body in its [try], the error logged. *)
Definition trySession (session : Session) (renamedCount : nat) : M nat :=
  try_catch
    (processSession session renamedCount)
    (fun error =>
       addLog (LogSessionError (id session) error) ;; ret renamedCount).

Fixpoint forEachSession (newSessions : list Session) (renamedCount : nat)
  : M nat :=
  match newSessions with
  | [] => ret renamedCount
  | session :: rest =>
      n <- trySession session renamedCount ;;
      forEachSession rest n
  end.

(** The outer [try] block. *)
Definition cycleBody : M unit :=
  if negb (sdkInstance env) then addLog LogSdkNotAvailable
  else
    addLog LogChecking ;;
    listed <- call GetSessions (getSessions env) ;;
    match listed with
    | None | Some [] => addLog LogNoSessions ;; updateCounts 0 0 0
    | Some sessions =>
        knownSessions <- getKnownSessions ;;
        let currentSessionIds := new_Set (map id sessions) in
        let newSessions :=
          filter (fun session => negb (has knownSessions (id session)))
                 sessions in
        addLog (LogCounts (List.length sessions) (List.length knownSessions)
                          (List.length newSessions)) ;;
        updateCounts (List.length sessions) (List.length knownSessions)
                     (List.length newSessions) ;;
        if Nat.eqb (List.length newSessions) 0 then
          addLog LogNoNewSessions ;;
          saveKnownSessions currentSessionIds
        else
          renamedCount <- forEachSession newSessions 0 ;;
          saveKnownSessions currentSessionIds ;;
          addLog (LogSaved (List.length currentSessionIds)) ;;
          (if Nat.ltb 0 renamedCount
           then addLog (LogRenamedCount renamedCount) else ret tt) ;;
          finalKnown <- getKnownSessions ;;
          updateCounts (List.length sessions) (List.length finalKnown) 0
    end.

Definition checkAndRenameReplayTabs : M unit :=
  try_catch cycleBody (fun error => addLog (LogCycleError error)).

(** The reset button. *)
Definition onResetClick : M unit :=
  clearKnownSessions ;;
  addLog LogStorageCleared ;;
  updateCounts 0 0 0.

End TabRenamer.

(** * The stand-alone variant

    The same plugin as one [init] function.  Its parser and its default
    naming are the same text and its cycle has the same steps; the known
    ids and the custom source are items of [localStorage] (the source is
    held here in [namingFunction]), [addLog] writes to the page, and the
    functions below differ from the component's. *)

Module Standalone.

Section Variant.

Variable env : Environment.

(** Whether [document.getElementById("activity-logs")] finds the log
    container while the function runs. *)
Variable logContainer : bool.

(** The [TypeError] of reading a property of [null] or [undefined]. *)
Variable nullishTypeError : Thrown.

(** The log is the list of children of the container, newest first; the
    placeholder [<em>] of the empty container is the empty list. *)
Definition addLog (message : LogMessage) : M unit :=
  fun st =>
    if negb (logsEnabled st) then (Normal tt, st)
    else if logContainer then
      let logs := message :: activityLogs st in
      (Normal tt,
       set_activityLogs
         (if Nat.ltb 50 (List.length logs) then firstn 50 logs else logs) st)
    else (Normal tt, st).

(** [`${error.message}`]: reading the property throws on [null] and
    [undefined], the conversion throws on a message such as a [Symbol]. *)
Definition messageOf (error : UserThrown) : Completion string :=
  match error with
  | UserError message => templateText message
  | UserValue message => templateText message
  | UserNullish => Throw nullishTypeError
  end.

Definition generateTabName (method path : string) (host : option string)
  : M string :=
  returned <- try_catch
                (tryCustomFunction env method path host)
                (fun error =>
                   match messageOf error with
                   | Normal message =>
                       addLog (LogCustomFunctionError message) ;;
                       addLog LogUsingDefault ;;
                       ret None
                   | Throw typeError => throw typeError
                   end) ;;
  match returned with
  | Some tabName => ret tabName
  | None => ret (defaultTabName method path)
  end.

(** No test of [response.ok], no fallback entry: every failure is [null]. *)
Definition getSessionDetails (sessionId : string) : M (option Entry) :=
  try_catch
    (_ <- read_accessToken env ;;
     response <- call (PostGraphql sessionId)
                      (fun h => fetch env h sessionId) ;;
     match json response with
     | BodyMalformed => throw (ThrownError "malformed response")
     | BodyData activeEntry => ret activeEntry
     end)
    (fun _ => ret None).

End Variant.

End Standalone.

(** * Notions used in the statements *)

(** ** Strings and parser, in the words of the specification *)

(** What follows the first [?] or [#]. *)
Fixpoint after_query_mark (s : string) : string :=
  match s with
  | "" => ""
  | String c r => if is_query_mark c then r else after_query_mark r
  end.

Fixpoint has_space (s : string) : bool :=
  match s with
  | "" => false
  | String c r => is_space c || has_space r
  end.

Fixpoint all_space (s : string) : bool :=
  match s with
  | "" => true
  | String c r => is_space c && all_space r
  end.

Definition is_letter (lower upper c : ascii) : bool :=
  Ascii.eqb c lower || Ascii.eqb c upper.

(** The first five characters are [host:], in any case of the letters. *)
Definition begins_with_host (t : string) : bool :=
  match t with
  | String c1 (String c2 (String c3 (String c4 (String c5 _)))) =>
      is_letter "h" "H" c1 && is_letter "o" "O" c2 && is_letter "s" "S" c3
      && is_letter "t" "T" c4 && Ascii.eqb c5 ":"
  | _ => false
  end.

Definition is_host_line (line : string) : bool :=
  begins_with_host (trim line).

(** The host in the specification's words: of the first line that, once
    trimmed, begins with [host:] in any case, what follows the colon,
    trimmed; the empty string without such a line. *)
Definition spec_host (lines : list string) : string :=
  match find is_host_line lines with
  | Some line => trim (substring_from 5 (trim line))
  | None => ""
  end.

(** ** Observations on states and histories *)

(** The known ids as the host's storage holds them. *)
Definition persistedKnown (st : State) : list string :=
  match storage st with
  | StoredObject (Some known) _ _ => known
  | _ => []
  end.

(** The calls to the rename API in a history, and the evaluations of user
    code. *)
Definition is_rename (c : Call) : bool :=
  match c with RenameSession _ _ => true | _ => false end.

Definition is_evaluation (c : Call) : bool :=
  match c with RunUserFunction _ _ _ _ => true | _ => false end.

Definition renames (calls : list Call) : list Call := filter is_rename calls.

Definition evaluations (calls : list Call) : list Call :=
  filter is_evaluation calls.

Definition not_rename (c : Call) : Prop := is_rename c = false.

(** The value of the most recent write to the storage. *)
Fixpoint last_write (calls : list Call) : option PluginStorage :=
  match calls with
  | [] => None
  | StorageSet value :: _ => Some value
  | _ :: older => last_write older
  end.

Definition not_write (c : Call) : Prop :=
  match c with StorageSet _ => False | _ => True end.

(** A user function is only ever given the empty host. *)
Definition host_is_empty (c : Call) : Prop :=
  match c with
  | RunUserFunction _ _ _ host => host = ""
  | _ => True
  end.

(** What [addLog] leaves in the log. *)
Definition logged (message : LogMessage) (st : State) : list LogMessage :=
  if logsEnabled st then firstn 50 (message :: activityLogs st)
  else activityLogs st.

(** ** Properties of computations *)

(** [m] never throws. *)
Definition total {A} (m : M A) : Prop :=
  forall st, exists a st', m st = (Normal a, st').

(** [m] never throws and leaves the storage as it is. *)
Definition keeps_storage {A} (m : M A) : Prop :=
  forall st, exists a st', m st = (Normal a, st') /\ storage st' = storage st.

(** [m] only adds calls that satisfy [P] to the history. *)
Definition grows (P : Call -> Prop) {A} (m : M A) : Prop :=
  forall st, exists calls,
    history (snd (m st)) = (calls ++ history st)%list /\ Forall P calls.

(** ** Answers of the collaborators *)

Definition has_token (env : Environment) (calls : list Call) : bool :=
  match authentication env calls with
  | Some token => truthy token
  | None => false
  end.

(** What a GraphQL answer is turned into. *)
Definition answeredEntry (env : Environment) (calls : list Call)
           (sessionId : string) : option Entry :=
  match fetch env calls sessionId with
  | Normal response =>
      if ok response then
        match json response with
        | BodyMalformed => Some (fallbackEntry sessionId)
        | BodyData activeEntry => activeEntry
        end
      else Some (fallbackEntry sessionId)
  | Throw _ => Some (fallbackEntry sessionId)
  end.

(** The entry has a payload to decode. *)
Definition has_raw (entry : option Entry) : bool :=
  match entry with
  | Some e => match raw e with RawMissing => false | _ => true end
  | None => false
  end.

(** The lookup gives no entry or an entry without payload. *)
Definition no_details (env : Environment) (session : Session) (st : State)
  : Prop :=
  has_token env (history st) = false
  \/ fetch env (history st) (id session)
     = Normal (mkResponse true (BodyData None))
  \/ exists entry,
       fetch env (history st) (id session)
       = Normal (mkResponse true (BodyData (Some entry)))
       /\ raw entry = RawMissing.

(** The request fails, is refused, or is answered with a malformed body. *)
Definition request_fails (env : Environment) (session : Session) (st : State)
  : Prop :=
  (exists error, fetch env (history st) (id session) = Throw error)
  \/ (exists response,
        fetch env (history st) (id session) = Normal response
        /\ (ok response = false \/ json response = BodyMalformed)).

(** * Sample data *)

(** ** Texts *)

Definition long_path : string := "/very/long/path/that/exceeds/the/limit/xyz".

Definition broken_path : string := "/a?b" ++ LF ++ "c".

Definition blank_text : string := LF ++ "  " ++ CRLF ++ LF.

Definition headers_text : string :=
  "GET /x HTTP/1.1" ++ CRLF ++ "User-Agent: t" ++ CRLF
  ++ "Host:   example.com" ++ CRLF ++ "Accept: */*" ++ CRLF ++ CRLF.

Definition request_with_host : string :=
  "POST /login HTTP/1.1" ++ CRLF ++ "Host:   example.com" ++ CRLF ++ CRLF.

Definition request_foo : string :=
  "GET /foo/bar?x=1 HTTP/1.1" ++ LF ++ "Host: h.test" ++ LF ++ LF.

(** ** Environments and states *)

(** A host with a token and a working storage that lists [listing],
    answers every GraphQL query with [reply] and runs user code as
    [user]. *)
Definition simpleEnvironment (listing : list Session)
           (reply : string -> Completion Response)
           (user : string -> string -> string -> string
                   -> Outcome UserThrown JsValue)
  : Environment :=
  mkEnvironment true
    (fun _ => Normal (Some listing))
    (fun _ => Some "token")
    (fun _ => reply)
    (fun _ _ _ => Normal tt)
    (fun _ => user)
    (fun _ => None)
    (fun _ _ => None).

Definition no_user_code (source method path host : string)
  : Outcome UserThrown JsValue := Normal VOther.

Definition entry_reply (e : option Entry) (sessionId : string)
  : Completion Response :=
  Normal (mkResponse true (BodyData e)).

Definition freshState : State := mkState true [] "" 0 0 0 StoredOther [].

Definition session_a : Session := mkSession "a" "old".

(** Session [a] is known and no longer listed; session [b] is new. *)
Definition session_b : Session := mkSession "b" "new".

(** The scenario of the specification: one new session [a] named [old]. *)
Definition env_scenario : Environment :=
  simpleEnvironment [session_a]
    (entry_reply (Some (mkEntry (RawBase64 request_foo) (Some "old"))))
    no_user_code.

(** The GraphQL request fails. *)
Definition env_fetch_fails : Environment :=
  simpleEnvironment [session_a]
    (fun _ => Throw (ThrownError "Failed to fetch")) no_user_code.

(** The response carries no active entry. *)
Definition env_no_entry : Environment :=
  simpleEnvironment [session_a] (entry_reply None) no_user_code.

(** The session already bears the generated name. *)
Definition env_already_named : Environment :=
  simpleEnvironment [session_a]
    (entry_reply (Some (mkEntry (RawBase64 request_foo) (Some "GET /foo/bar"))))
    no_user_code.

Definition env_only_b : Environment :=
  simpleEnvironment [session_b] (entry_reply None) no_user_code.

Definition state_knowing_a : State :=
  mkState true [] "" 0 0 0 (StoredObject (Some ["a"]) None None) [].

Definition throwing_user_code (source method path host : string)
  : Outcome UserThrown JsValue := Throw (UserError (Text "boom")).

Definition env_throwing : Environment :=
  simpleEnvironment [session_a]
    (entry_reply (Some (mkEntry (RawBase64 request_foo) (Some "old"))))
    throwing_user_code.

Definition state_with_code (enabled : bool) : State :=
  mkState enabled [] "throw new Error('boom')" 0 0 0 StoredOther [].

Definition echo_host (source method path host : string)
  : Outcome UserThrown JsValue :=
  Normal (VString ("[" ++ host ++ "] " ++ path)).

Definition env_echo : Environment :=
  simpleEnvironment [session_a]
    (entry_reply (Some (mkEntry (RawBase64 request_foo) (Some "old"))))
    echo_host.

Definition state_echo : State :=
  mkState true [] "return '[' + host + '] ' + path" 0 0 0 StoredOther [].

Definition throwing_null (source method path host : string)
  : Outcome UserThrown JsValue := Throw UserNullish.

Definition env_throwing_null : Environment :=
  simpleEnvironment [session_a]
    (entry_reply (Some (mkEntry (RawBase64 request_foo) (Some "old"))))
    throwing_null.

Definition state_throw_null : State :=
  mkState true [] "throw null" 0 0 0 StoredOther [].

(** The rename API refuses. *)
Definition env_rename_fails : Environment :=
  mkEnvironment true
    (fun _ => Normal (Some [session_a]))
    (fun _ => Some "token")
    (fun _ => entry_reply (Some (mkEntry (RawBase64 request_foo) (Some "old"))))
    (fun _ _ _ => Throw (ThrownError "rename refused"))
    (fun _ => no_user_code)
    (fun _ => None)
    (fun _ _ => None).

(** The payload decodes to a text that is no request. *)
Definition env_garbage_payload : Environment :=
  simpleEnvironment [session_a]
    (entry_reply (Some (mkEntry (RawBase64 "garbage") (Some "old"))))
    no_user_code.

(** * Settings kept in the storage *)

Section Settings.

Variable env : Environment.

Definition getCustomNamingFunction : M string :=
  stored <- getStorage env ;;
  ret (customNamingFunction stored).

Definition saveCustomNamingFunction (functionCode : string) : M unit :=
  stored <- getStorage env ;;
  saveStorage env (mkPluginStorage (knownSessions stored) functionCode
                                   (pollingInterval stored)).

Definition getPollingInterval : M Z :=
  stored <- getStorage env ;;
  ret (pollingInterval stored).

Definition savePollingInterval (interval : Z) : M unit :=
  stored <- getStorage env ;;
  saveStorage env (mkPluginStorage (knownSessions stored)
                                   (customNamingFunction stored) interval).

End Settings.

(** * Notions for the further properties *)

Definition CR : string := String (ascii_of_nat 13) "".

(** The text begins with a line feed. *)
Definition starts_with_lf (s : string) : bool :=
  match s with
  | String c _ => code_is 10 c
  | "" => false
  end.

(** The text is empty or begins with white space. *)
Definition empty_or_spaced (s : string) : bool :=
  match s with
  | String c _ => is_space c
  | "" => true
  end.

Fixpoint all_name_chars (s : string) : bool :=
  match s with
  | "" => true
  | String c r => is_name_char c && all_name_chars r
  end.

(** What the storage holds for the two settings, as [getStorage] reads
    them. *)
Definition persistedFunction (st : State) : string :=
  match storage st with
  | StoredObject _ (Some source) _ => source
  | _ => ""
  end.

Definition persistedInterval (st : State) : Z :=
  match storage st with
  | StoredObject _ _ (Some interval) => interval
  | _ => 3000%Z
  end.

(** The whole of it, as [getStorage] reads it. *)
Definition readStorage (st : State) : PluginStorage :=
  mkPluginStorage (persistedKnown st) (persistedFunction st)
                  (persistedInterval st).

(** The requests for details in a history. *)
Definition is_fetch (c : Call) : bool :=
  match c with PostGraphql _ => true | _ => false end.

Definition fetches (calls : list Call) : list Call := filter is_fetch calls.

(** The calls about single sessions: requests for details, evaluations of
    user code and renames. *)
Definition is_session_call (c : Call) : bool :=
  is_fetch c || is_evaluation c || is_rename c.

Definition session_calls (calls : list Call) : list Call :=
  filter is_session_call calls.

(** A call about a session concerns one of the ids [ids]. *)
Definition concerns (ids : list string) (c : Call) : Prop :=
  match c with
  | PostGraphql sessionId => In sessionId ids
  | RenameSession sessionId _ => In sessionId ids
  | _ => True
  end.

(** A rename gives a name that is not empty. *)
Definition names_not_empty (c : Call) : Prop :=
  match c with
  | RenameSession _ newName => newName <> ""
  | _ => True
  end.

(** The sessions of a listing that are not in the known set, as the cycle
    filters them. *)
Definition newSessionsOf (known : list string) (sessions : list Session)
  : list Session :=
  filter (fun session => negb (has known (id session))) sessions.

(** The part of a turn of the loop that follows the lookup of the
    details, as in [processSession]. *)
Definition afterDetails (env : Environment) (session : Session)
           (renamedCount : nat) (entry : option Entry) : M nat :=
  match entry with
  | None => addLog (LogNoDetails (id session)) ;; ret renamedCount
  | Some entry =>
      match raw entry with
      | RawMissing => addLog (LogNoDetails (id session)) ;; ret renamedCount
      | _ =>
          let currentName := currentNameOf entry session in
          decoded <- atob (raw entry) ;;
          match parseRawRequest decoded with
          | None => addLog (LogCannotParse (id session)) ;; ret renamedCount
          | Some requestInfo =>
              newName <- generateTabName env (method requestInfo)
                                         (path requestInfo) None ;;
              if String.eqb currentName newName then
                addLog (LogAlreadyCorrect (id session)) ;; ret renamedCount
              else
                call (RenameSession (id session) newName)
                     (fun h => renameSession env h (id session) newName) ;;
                addLog (LogRenamed (id session) newName) ;;
                addLog (LogRequest (method requestInfo) (host requestInfo)
                                   (path requestInfo)) ;;
                ret (S renamedCount)
          end
      end
  end.

(** The known set a cycle loads, after its call for the listing: the ids
    in the storage as a set, or nothing when the reading fails. *)
Definition loadedKnown (env : Environment) (st : State) : list string :=
  match storageGetError env (GetSessions :: history st) with
  | Some _ => []
  | None => new_Set (persistedKnown st)
  end.

(** The state of a cycle with a listing that is not empty when it has
    reported its counts. *)
Definition stateBeforeLoop (env : Environment) (st : State)
           (sessions : list Session) : State :=
  let st1 :=
    record_call StorageGet
      (record_call GetSessions (set_activityLogs (logged LogChecking st) st)) in
  let known := loadedKnown env st in
  let new := newSessionsOf known sessions in
  set_counts (List.length sessions) (List.length known) (List.length new)
    (set_activityLogs
       (logged (LogCounts (List.length sessions) (List.length known)
                          (List.length new)) st1) st1).

(** What such a cycle does from there. *)
Definition restOfCycle (env : Environment) (st : State)
           (sessions : list Session) : M unit :=
  let known := loadedKnown env st in
  let currentSessionIds := new_Set (map id sessions) in
  let newSessions := newSessionsOf known sessions in
  if Nat.eqb (List.length newSessions) 0 then
    addLog LogNoNewSessions ;;
    saveKnownSessions env currentSessionIds
  else
    renamedCount <- forEachSession env newSessions 0 ;;
    saveKnownSessions env currentSessionIds ;;
    addLog (LogSaved (List.length currentSessionIds)) ;;
    (if Nat.ltb 0 renamedCount
     then addLog (LogRenamedCount renamedCount) else ret tt) ;;
    finalKnown <- getKnownSessions env ;;
    updateCounts (List.length sessions) (List.length finalKnown) 0.

(** The calls for a session that [P] lets through: the request for its
    details and its renames to a name that is not empty. *)
Definition allowed_calls (P : Call -> Prop) (session : Session) : Prop :=
  P (PostGraphql (id session))
  /\ forall newName, newName <> "" -> P (RenameSession (id session) newName).

Definition not_fetch (c : Call) : Prop := is_fetch c = false.

Definition not_session_call (c : Call) : Prop := is_session_call c = false.

(** The counters and the storage are the same. *)
Definition same_counts_and_storage (st st' : State) : Prop :=
  sessionsCount st' = sessionsCount st
  /\ knownCount st' = knownCount st
  /\ newCount st' = newCount st
  /\ storage st' = storage st.

(** [m] takes every state to one related to it by [R]. *)
Definition steps (R : State -> State -> Prop) {A} (m : M A) : Prop :=
  forall st, R st (snd (m st)).

(** The log stays within 50 entries. *)
Definition log_bounded (st st' : State) : Prop :=
  List.length (activityLogs st) <= 50 -> List.length (activityLogs st') <= 50.

(** What a cycle leaves alone: the two switches of the component, and the
    log while the logs are off. *)
Definition same_switches (st st' : State) : Prop :=
  logsEnabled st' = logsEnabled st
  /\ namingFunction st' = namingFunction st
  /\ (logsEnabled st = false -> activityLogs st' = activityLogs st).

(** The storage gives no error on reading, or on writing. *)
Definition reads_work (env : Environment) : Prop :=
  forall calls, storageGetError env calls = None.

Definition writes_work (env : Environment) : Prop :=
  forall calls value, storageSetError env calls value = None.

(** The token is there whenever it is read. *)
Definition token_present (env : Environment) : Prop :=
  forall calls, has_token env calls = true.

(** * Properties *)

(** ** Strings *)

Lemma length_app (a b : string) :
  String.length (a ++ b) = String.length a + String.length b.
Proof.
  induction a as [|c a IH]; simpl; [reflexivity | now rewrite IH].
Qed.

Lemma length_substring_0 (n : nat) (s : string) :
  String.length (substring 0 n s) = Nat.min n (String.length s).
Proof.
  revert n; induction s as [|c s IH]; intros [|n]; simpl; auto.
Qed.

Lemma substring_from_app (a b : string) :
  substring_from (String.length a) (a ++ b) = b.
Proof.
  induction a as [|c a IH]; simpl; [now destruct b | exact IH].
Qed.

Lemma endsWith_app (a b : string) : endsWith (a ++ b) b = true.
Proof.
  unfold endsWith. rewrite length_app, Nat.add_sub, substring_from_app.
  apply String.eqb_refl.
Qed.

Lemma app_assoc_string (a b c : string) : (a ++ b) ++ c = a ++ (b ++ c).
Proof.
  induction a as [|x a IH]; simpl; [reflexivity | now rewrite IH].
Qed.

(** ** The default naming algorithm *)

Example default_name_long_path :
  defaultTabName "GET" long_path = "GET /very/long/path/that/ex...".
Proof. reflexivity. Qed.

Example default_name_short_path :
  defaultTabName "GET" "/foo/bar?x=1" = "GET /foo/bar".
Proof. reflexivity. Qed.

(** The text a truncated name is made of. *)
Lemma defaultTabName_truncated (method path : string) :
  30 < String.length method + 1 + String.length (cleanPath path) ->
  defaultTabName method path
  = method ++ " "
    ++ substring 0 (30 - String.length method - 4) (cleanPath path) ++ "...".
Proof.
  intros Hlong. unfold defaultTabName, maxLength, substring_to.
  replace (String.length (method ++ " " ++ cleanPath path))
    with (String.length method + 1 + String.length (cleanPath path))
    by (rewrite !length_app; cbn [String.length]; lia).
  destruct (Z.ltb_spec 30
              (Z.of_nat (String.length method + 1
                         + String.length (cleanPath path)))) as [_|Hle];
    [|lia].
  replace (Z.to_nat (30 - Z.of_nat (String.length method) - 4))
    with (30 - String.length method - 4) by lia.
  reflexivity.
Qed.

(** C2, as stated, fails: for method [GET] and a cleaned path of 42
    characters the name has 30 characters, not
    [len(M) + 1 + (27 - len(M)) + 3 = 31]. *)
Lemma default_truncation_length_counterexample :
  30 < String.length "GET" + 1 + String.length (cleanPath long_path)
  /\ String.length (defaultTabName "GET" long_path)
     <> String.length "GET" + 1 + (27 - String.length "GET") + 3.
Proof. split; vm_compute; [lia | discriminate]. Qed.

(** C2, amended: when [len(M) + 1 + len(P) > 30] for the cleaned path [P],
    the name is [M], a space, the first [30 - len(M) - 4] characters of
    [P] (none when that is negative) and ["..."]; it ends with ["..."];
    its length is [len(M) + 1 + (26 - len(M)) + 3], that is 30, when
    [len(M) <= 26], and [len(M) + 4] otherwise. *)
Theorem default_truncation_law (method path : string) :
  30 < String.length method + 1 + String.length (cleanPath path) ->
  defaultTabName method path
  = method ++ " "
    ++ substring 0 (30 - String.length method - 4) (cleanPath path) ++ "..."
  /\ endsWith (defaultTabName method path) "..." = true
  /\ (String.length method <= 26 ->
      String.length (defaultTabName method path)
      = String.length method + 1 + (26 - String.length method) + 3
      /\ String.length (defaultTabName method path) = 30)
  /\ (26 < String.length method ->
      defaultTabName method path = method ++ " ..."
      /\ String.length (defaultTabName method path)
         = String.length method + 4).
Proof.
  intros Hlong. pose proof (defaultTabName_truncated method path Hlong) as E.
  split; [exact E|]. split; [|split].
  - rewrite E, <- !app_assoc_string. apply endsWith_app.
  - intros Hm. rewrite E, !length_app, length_substring_0.
    cbn [String.length]. lia.
  - intros Hm. rewrite E.
    replace (30 - String.length method - 4) with 0 by lia.
    assert (H0 : substring 0 0 (cleanPath path) = "")
      by (destruct (cleanPath path); reflexivity).
    rewrite H0. split; [reflexivity|].
    rewrite !length_app. cbn [String.length append]. lia.
Qed.

Lemma default_truncation_law_witness :
  30 < String.length "GET" + 1 + String.length (cleanPath long_path)
  /\ endsWith (defaultTabName "GET" long_path) "..." = true.
Proof.
  assert (H : 30 < String.length "GET" + 1 + String.length (cleanPath long_path))
    by (vm_compute; lia).
  split; [exact H|].
  exact (proj1 (proj2 (default_truncation_law "GET" long_path H))).
Defined.

(** ** Path sanitization *)

Lemma replace_query_cut (s : string) :
  has_line_terminator (after_query_mark s) = false ->
  replace_query s = cut_at_query_mark s.
Proof.
  induction s as [|c r IH]; simpl; [reflexivity|].
  destruct (is_query_mark c); simpl; intros H.
  - now rewrite H.
  - now rewrite IH.
Qed.

Lemma has_line_terminator_after (s : string) :
  has_line_terminator s = false ->
  has_line_terminator (after_query_mark s) = false.
Proof.
  induction s as [|c r IH]; simpl; [reflexivity|].
  intros H. apply orb_false_iff in H as [_ H].
  destruct (is_query_mark c); auto.
Qed.

(** On a text with a line terminator after its [?], which no token of a
    request line is, [/[?#].*$/] does not match and only the second
    replacement acts. *)
Example cleanPath_line_terminator :
  cleanPath broken_path = "/abc" /\ spec_cleanPath broken_path = "/a".
Proof. split; reflexivity. Qed.

Lemma cleanPath_cut (path : string) :
  has_line_terminator (after_query_mark path) = false ->
  cleanPath path = spec_cleanPath path.
Proof.
  intros H. unfold cleanPath, spec_cleanPath. now rewrite replace_query_cut.
Qed.

(** ** The request parser *)

Ltac each_char c :=
  destruct c as [[] [] [] [] [] [] [] []]; try reflexivity; try discriminate.

Lemma line_terminator_is_space (c : ascii) :
  is_space c = false -> is_line_terminator c = false.
Proof. each_char c. Qed.

Lemma not_space_not_cr (c : ascii) : is_space c = false -> code_is 13 c = false.
Proof. each_char c. Qed.

Lemma not_space_not_lf (c : ascii) : is_space c = false -> code_is 10 c = false.
Proof. each_char c. Qed.

Lemma has_space_line_terminator (s : string) :
  has_space s = false -> has_line_terminator s = false.
Proof.
  induction s as [|c r IH]; simpl; [reflexivity|].
  intros H. apply orb_false_iff in H as [Hc Hr].
  now rewrite line_terminator_is_space, IH.
Qed.

Section NoSpace.

Variable s : string.
Hypothesis Hs : has_space s = false.

Lemma replace_crlf_no_space : replace_crlf s = s.
Proof.
  revert Hs. induction s as [|c r IH]; [reflexivity|].
  intros H. simpl in H. apply orb_false_iff in H as [Hc Hr].
  cbn [replace_crlf]. destruct r as [|d r']; [reflexivity|].
  rewrite (not_space_not_cr c Hc). cbn [andb]. now rewrite IH.
Qed.

Lemma replace_cr_no_space : replace_cr s = s.
Proof.
  revert Hs. induction s as [|c r IH]; [reflexivity|].
  intros H. simpl in H. apply orb_false_iff in H as [Hc Hr].
  simpl. now rewrite (not_space_not_cr c Hc), IH.
Qed.

Lemma split_lf_no_space : split_lf s = [s].
Proof.
  revert Hs. induction s as [|c r IH]; [reflexivity|].
  intros H. simpl in H. apply orb_false_iff in H as [Hc Hr].
  simpl. now rewrite (not_space_not_lf c Hc), IH.
Qed.

Lemma trimStart_no_space : trimStart s = s.
Proof.
  destruct s as [|c r]; [reflexivity|].
  simpl in Hs. apply orb_false_iff in Hs as [Hc _].
  simpl. now rewrite Hc.
Qed.

Lemma trimEnd_no_space : trimEnd s = s.
Proof.
  revert Hs. induction s as [|c r IH]; [reflexivity|].
  intros H. simpl in H. apply orb_false_iff in H as [Hc Hr].
  simpl. rewrite IH by assumption. rewrite Hc. now destruct r.
Qed.

Lemma trim_no_space : trim s = s.
Proof. unfold trim. now rewrite trimStart_no_space, trimEnd_no_space. Qed.

Lemma split_spaces_no_space : split_spaces s = [s].
Proof.
  unfold split_spaces. revert Hs. induction s as [|c r IH]; [reflexivity|].
  intros H. simpl in H. apply orb_false_iff in H as [Hc Hr].
  simpl. now rewrite Hc, IH.
Qed.

End NoSpace.

(** A text without white space has one token: no request. *)
Lemma parse_no_space (raw : string) :
  has_space raw = false -> parseRawRequest raw = None.
Proof.
  intros H. unfold parseRawRequest, lines_of, normalize.
  destruct (truthy raw) eqn:Eraw; [|reflexivity]. cbn [negb].
  rewrite (replace_crlf_no_space raw H), (replace_cr_no_space raw H),
    (split_lf_no_space raw H).
  cbn [List.length Nat.eqb find_request_line].
  rewrite (trim_no_space raw H), Eraw, Eraw. cbn [negb].
  now rewrite (split_spaces_no_space raw H).
Qed.

Lemma find_request_line_blank (lines : list string) :
  Forall (fun line => trim line = "") lines -> find_request_line lines = "".
Proof.
  induction 1 as [|line rest Hl _ IH]; simpl; [reflexivity|].
  now rewrite Hl.
Qed.

(** A text with blank lines only has no request line. *)
Lemma parse_blank_lines (raw : string) :
  Forall (fun line => trim line = "") (lines_of raw) ->
  parseRawRequest raw = None.
Proof.
  intros H. unfold parseRawRequest.
  destruct (truthy raw); [|reflexivity]. cbn [negb].
  destruct (Nat.eqb (List.length (lines_of raw)) 0); [reflexivity|].
  now rewrite (find_request_line_blank _ H).
Qed.

(** White space only is blank lines only. *)
Lemma trimStart_all_space (s : string) : all_space s = true -> trimStart s = "".
Proof.
  induction s as [|c r IH]; simpl; [reflexivity|].
  intros H. apply andb_true_iff in H as [Hc Hr]. now rewrite Hc, IH.
Qed.

Lemma all_space_replace_crlf_upto (n : nat) (s : string) :
  String.length s <= n ->
  all_space s = true -> all_space (replace_crlf s) = true.
Proof.
  revert s. induction n as [|n IH]; intros [|c r] Hn H; try reflexivity;
    [simpl in Hn; lia|].
  simpl in H, Hn. apply andb_true_iff in H as [Hc Hr].
  cbn [replace_crlf]. destruct r as [|d r']; [simpl; now rewrite Hc|].
  pose proof Hr as Hdr. simpl in Hdr. apply andb_true_iff in Hdr as [Hd Hr'].
  destruct (code_is 13 c && code_is 10 d); cbn [all_space].
  - rewrite Hd. apply IH; [simpl in Hn; lia | assumption].
  - rewrite Hc. apply IH; [lia | assumption].
Qed.

Lemma all_space_replace_crlf (s : string) :
  all_space s = true -> all_space (replace_crlf s) = true.
Proof. apply (all_space_replace_crlf_upto (String.length s)). lia. Qed.

Lemma all_space_replace_cr (s : string) :
  all_space s = true -> all_space (replace_cr s) = true.
Proof.
  induction s as [|c r IH]; simpl; [reflexivity|].
  intros H. apply andb_true_iff in H as [Hc Hr]. rewrite IH by assumption.
  destruct (code_is 13 c); [reflexivity | now rewrite Hc].
Qed.

Lemma all_space_split_lf (s : string) :
  all_space s = true -> Forall (fun line => all_space line = true) (split_lf s).
Proof.
  induction s as [|c r IH]; simpl; [now repeat constructor|].
  intros H. apply andb_true_iff in H as [Hc Hr]. specialize (IH Hr).
  destruct (code_is 10 c); [now constructor|].
  destruct (split_lf r) as [|p ps]; [now repeat constructor; simpl; rewrite Hc|].
  inversion IH; subst. constructor; [simpl; now rewrite Hc | assumption].
Qed.

Lemma parse_all_space (raw : string) :
  all_space raw = true -> parseRawRequest raw = None.
Proof.
  intros H. apply parse_blank_lines. unfold lines_of, normalize.
  eapply Forall_impl;
    [|apply all_space_split_lf, all_space_replace_cr, all_space_replace_crlf, H].
  intros line Hl. unfold trim. now rewrite trimStart_all_space.
Qed.

Lemma truthy_true (s : string) : truthy s = true -> s <> "".
Proof.
  unfold truthy. intros H E. subst. discriminate.
Qed.

(** A parsed request has a method and a path. *)
Lemma parse_some (raw : string) (r : ParsedRequest) :
  parseRawRequest raw = Some r ->
  method r = nth 0 (split_spaces (find_request_line (lines_of raw))) ""
  /\ path r = nth 1 (split_spaces (find_request_line (lines_of raw))) ""
  /\ host r = find_host (lines_of raw)
  /\ method r <> "" /\ path r <> "".
Proof.
  unfold parseRawRequest.
  destruct (negb (truthy raw)); [discriminate|].
  destruct (Nat.eqb _ 0); [discriminate|].
  destruct (negb (truthy (find_request_line _))); [discriminate|].
  destruct (Nat.ltb _ 2); [discriminate|].
  destruct (truthy (nth 0 _ "")) eqn:Hm; [|discriminate].
  destruct (truthy (nth 1 _ "")) eqn:Hp; [|discriminate].
  cbn [negb orb]. intros E. injection E as <-. cbn.
  repeat split; auto using truthy_true.
Qed.

(** C7: the parser is a total function into [option]: it gives a record,
    whose method and path are then not empty, or the failure signal, and
    raises nothing; the empty string, a text without white space (one
    line, one token) and a text of blank lines only give the failure
    signal. *)
Theorem parse_failure_signal :
  (forall raw,
     parseRawRequest raw = None
     \/ exists m p h,
          parseRawRequest raw = Some (mkParsedRequest m p h)
          /\ m <> "" /\ p <> "")
  /\ parseRawRequest "" = None
  /\ (forall raw, has_space raw = false -> parseRawRequest raw = None)
  /\ (forall raw,
        Forall (fun line => trim line = "") (lines_of raw) ->
        parseRawRequest raw = None)
  /\ (forall raw, all_space raw = true -> parseRawRequest raw = None).
Proof.
  split; [|split; [reflexivity|split; [exact parse_no_space|
           split; [exact parse_blank_lines|exact parse_all_space]]]].
  intros raw. destruct (parseRawRequest raw) as [[m p h]|] eqn:E; [|now left].
  right. exists m, p, h. split; [reflexivity|].
  now destruct (parse_some raw _ E) as (_ & _ & _ & Hm & Hp).
Qed.

Lemma parse_failure_signal_witness :
  parseRawRequest "garbage" = None /\ parseRawRequest blank_text = None.
Proof.
  destruct parse_failure_signal as (_ & _ & Hgarbage & Hblank & _).
  split.
  - apply Hgarbage. reflexivity.
  - apply Hblank. vm_compute. repeat constructor.
Defined.

(** ** The Host header *)

Lemma prefix_String (a b : ascii) (p s : string) :
  prefix (String a p) (String b s) = Ascii.eqb a b && prefix p s.
Proof.
  simpl. destruct (ascii_dec a b) as [->|Hne].
  - now rewrite Ascii.eqb_refl.
  - apply Ascii.eqb_neq in Hne. now rewrite Hne.
Qed.

Lemma prefix_empty (s : string) : prefix "" s = true.
Proof. now destruct s. Qed.

Lemma lower_h (c : ascii) : Ascii.eqb "h" (lower_char c) = is_letter "h" "H" c.
Proof. each_char c. Qed.

Lemma lower_o (c : ascii) : Ascii.eqb "o" (lower_char c) = is_letter "o" "O" c.
Proof. each_char c. Qed.

Lemma lower_s (c : ascii) : Ascii.eqb "s" (lower_char c) = is_letter "s" "S" c.
Proof. each_char c. Qed.

Lemma lower_t (c : ascii) : Ascii.eqb "t" (lower_char c) = is_letter "t" "T" c.
Proof. each_char c. Qed.

Lemma lower_colon (c : ascii) : Ascii.eqb ":" (lower_char c) = Ascii.eqb c ":".
Proof. each_char c. Qed.

(** [toLowerCase().startsWith('host:')] is the test without regard to case. *)
Lemma startsWith_host (t : string) :
  startsWith (toLowerCase t) "host:" = begins_with_host t.
Proof.
  unfold startsWith.
  destruct t as [|c1 [|c2 [|c3 [|c4 [|c5 t]]]]]; cbn [toLowerCase];
    rewrite ?prefix_String, ?lower_h, ?lower_o, ?lower_s, ?lower_t,
      ?lower_colon, ?prefix_empty; cbn [prefix begins_with_host];
    rewrite ?andb_false_r, ?andb_true_r, ?andb_assoc; reflexivity.
Qed.

Lemma find_host_spec (lines : list string) :
  find_host lines = spec_host lines.
Proof.
  unfold spec_host. induction lines as [|line rest IH]; [reflexivity|].
  cbn [find_host find]. unfold is_host_line at 1.
  rewrite startsWith_host.
  destruct (begins_with_host (trim line)); [reflexivity | exact IH].
Qed.

Example host_of_headers_text :
  option_map host (parseRawRequest headers_text) = Some "example.com".
Proof. reflexivity. Qed.

Example host_any_case :
  option_map host (parseRawRequest ("GET / HTTP/1.1" ++ LF ++ "  hOsT:x  "))
  = Some "x".
Proof. reflexivity. Qed.

Example host_absent :
  option_map host (parseRawRequest ("GET / HTTP/1.1" ++ LF ++ "Accept: a"))
  = Some "".
Proof. reflexivity. Qed.

(** How a text falls into lines around a CRLF. *)

Lemma replace_crlf_two (c d : ascii) (r : string) :
  replace_crlf (String c (String d r))
  = if code_is 13 c && code_is 10 d
    then String d (replace_crlf r)
    else String c (replace_crlf (String d r)).
Proof. reflexivity. Qed.

Lemma replace_crlf_CRLF (b : string) :
  replace_crlf (CRLF ++ b) = LF ++ replace_crlf b.
Proof. reflexivity. Qed.

Lemma replace_crlf_app_upto (n : nat) (a b : string) :
  String.length a <= n ->
  replace_crlf (a ++ CRLF ++ b) = replace_crlf a ++ LF ++ replace_crlf b.
Proof.
  revert a. induction n as [|n IH]; intros [|c a] Hn;
    try reflexivity; [simpl in Hn; lia|].
  destruct a as [|d a'].
  - change (String c "" ++ CRLF ++ b) with (String c (CRLF ++ b)).
    change (CRLF ++ b) with (String (ascii_of_nat 13) (LF ++ b)) at 1.
    rewrite replace_crlf_two.
    change (code_is 10 (ascii_of_nat 13)) with false.
    rewrite andb_false_r.
    change (String (ascii_of_nat 13) (LF ++ b)) with (CRLF ++ b).
    rewrite replace_crlf_CRLF. reflexivity.
  - change (String c (String d a') ++ CRLF ++ b)
      with (String c (String d (a' ++ CRLF ++ b))).
    rewrite !replace_crlf_two. destruct (code_is 13 c && code_is 10 d).
    + rewrite (IH a') by (simpl in Hn; lia). reflexivity.
    + change (String d (a' ++ CRLF ++ b)) with (String d a' ++ CRLF ++ b).
      rewrite (IH (String d a')) by (simpl in Hn |- *; lia). reflexivity.
Qed.

Lemma replace_cr_app (a b : string) :
  replace_cr (a ++ b) = replace_cr a ++ replace_cr b.
Proof.
  induction a as [|c a IH]; simpl; [reflexivity | now rewrite IH].
Qed.

Lemma split_lf_app (a b : string) :
  split_lf (a ++ LF ++ b) = (split_lf a ++ split_lf b)%list.
Proof.
  induction a as [|c a IH]; [reflexivity|].
  change (String c a ++ LF ++ b) with (String c (a ++ LF ++ b)).
  cbn [split_lf]. rewrite IH.
  destruct (code_is 10 c); [reflexivity|].
  assert (Hne : split_lf a <> [])
    by (destruct a as [|x a']; simpl; [discriminate|];
        destruct (code_is 10 x); [discriminate|];
        destruct (split_lf a'); discriminate).
  destruct (split_lf a); [contradiction | reflexivity].
Qed.

Lemma lines_of_app (a b : string) :
  lines_of (a ++ CRLF ++ b) = (lines_of a ++ lines_of b)%list.
Proof.
  unfold lines_of, normalize.
  rewrite (replace_crlf_app_upto (String.length a)) by lia.
  rewrite !replace_cr_app. change (replace_cr LF) with LF.
  apply split_lf_app.
Qed.

Lemma find_host_app (before rest : list string) :
  find is_host_line before = None ->
  find_host (before ++ rest)%list = find_host rest.
Proof.
  induction before as [|line before IH]; [reflexivity|].
  cbn [find app find_host]. unfold is_host_line at 1.
  rewrite startsWith_host.
  destruct (begins_with_host (trim line)); [discriminate | exact IH].
Qed.

Lemma host_after_other_headers (before after : string) (r : ParsedRequest) :
  find is_host_line (lines_of before) = None ->
  parseRawRequest (before ++ CRLF ++ "Host:   example.com" ++ CRLF ++ after)
  = Some r ->
  host r = "example.com".
Proof.
  intros Hbefore Hparse.
  destruct (parse_some _ _ Hparse) as (_ & _ & Hhost & _). rewrite Hhost.
  rewrite !lines_of_app, find_host_app by assumption. reflexivity.
Qed.

(** C8: when the parser gives a record, its host is, of the first line
    that begins with [host:] once trimmed, in any case of the letters,
    what follows the colon, trimmed, and the empty string when no line
    does; a text with the line [Host:   example.com] and CRLF after other
    lines, none of them a host line, gives the host [example.com]. *)
Theorem host_header_extraction :
  (forall raw r,
     parseRawRequest raw = Some r -> host r = spec_host (lines_of raw))
  /\ (forall before after r,
        find is_host_line (lines_of before) = None ->
        parseRawRequest
          (before ++ CRLF ++ "Host:   example.com" ++ CRLF ++ after) = Some r ->
        host r = "example.com")
  /\ option_map host (parseRawRequest headers_text) = Some "example.com".
Proof.
  split; [|split; [exact host_after_other_headers | reflexivity]].
  intros raw r Hparse.
  destruct (parse_some _ _ Hparse) as (_ & _ & Hhost & _).
  rewrite Hhost. apply find_host_spec.
Qed.

Lemma host_header_extraction_witness :
  host (mkParsedRequest "POST" "/login" "example.com")
  = spec_host (lines_of request_with_host)
  /\ host (mkParsedRequest "POST" "/login" "example.com") = "example.com".
Proof.
  destruct host_header_extraction as (Hfirst & Hcontains & _). split.
  - apply Hfirst. reflexivity.
  - apply (Hcontains "POST /login HTTP/1.1" CRLF); reflexivity.
Defined.

(** The tokens of a request line hold no white space, so the parsed path
    has no line terminator: every path the cycle passes to the name
    generator is cleaned as the specification says. *)
Lemma split_spaces_pieces (s : string) (in_run : bool) :
  Forall (fun p => has_space p = false) (split_spaces_from in_run s).
Proof.
  revert in_run. induction s as [|c r IH]; intros in_run; simpl;
    [now repeat constructor|].
  destruct (is_space c) eqn:Hc.
  - destruct in_run; [apply IH | constructor; [reflexivity | apply IH]].
  - specialize (IH false).
    destruct (split_spaces_from false r) as [|p ps];
      [repeat constructor; simpl; now rewrite Hc|].
    inversion IH; subst. constructor; [simpl; now rewrite Hc | assumption].
Qed.

Lemma nth_Forall {A} (P : A -> Prop) (l : list A) (n : nat) (d : A) :
  Forall P l -> P d -> P (nth n l d).
Proof.
  intros Hl Hd. revert n. induction Hl; intros [|n]; simpl; auto.
Qed.

Lemma parsed_path_no_space (raw : string) (r : ParsedRequest) :
  parseRawRequest raw = Some r ->
  has_space (method r) = false /\ has_space (path r) = false.
Proof.
  intros Hparse. destruct (parse_some _ _ Hparse) as (Hm & Hp & _).
  rewrite Hm, Hp.
  split; apply nth_Forall; try reflexivity; apply split_spaces_pieces.
Qed.

Lemma parsed_path_sanitization (raw : string) (r : ParsedRequest) :
  parseRawRequest raw = Some r -> cleanPath (path r) = spec_cleanPath (path r).
Proof.
  intros Hparse. apply cleanPath_cut.
  apply has_line_terminator_after, has_space_line_terminator.
  now destruct (parsed_path_no_space _ _ Hparse).
Qed.



(** ** The monad *)

Lemma bind_normal {A B} (m : M A) (k : A -> M B) st a st1 :
  m st = (Normal a, st1) -> bind m k st = k a st1.
Proof. intros E. unfold bind. now rewrite E. Qed.

Lemma bind_throw {A B} (m : M A) (k : A -> M B) st e st1 :
  m st = (Throw e, st1) -> bind m k st = (Throw e, st1).
Proof. intros E. unfold bind. now rewrite E. Qed.

Lemma try_normal {A} (m : M A) (handler : Thrown -> M A) st a st1 :
  m st = (Normal a, st1) -> try_catch m handler st = (Normal a, st1).
Proof. intros E. unfold try_catch. now rewrite E. Qed.

Lemma try_throw {A} (m : M A) (handler : Thrown -> M A) st e st1 :
  m st = (Throw e, st1) -> try_catch m handler st = handler e st1.
Proof. intros E. unfold try_catch. now rewrite E. Qed.

Lemma total_ret {A} (a : A) : total (ret a).
Proof. intros st. now exists a, st. Qed.

Lemma total_bind {A B} (m : M A) (k : A -> M B) :
  total m -> (forall a, total (k a)) -> total (bind m k).
Proof.
  intros Hm Hk st. destruct (Hm st) as (a & st1 & E).
  rewrite (bind_normal _ _ _ _ _ E). apply Hk.
Qed.

Lemma total_try {A} (m : M A) (handler : Thrown -> M A) :
  (forall e, total (handler e)) -> total (try_catch m handler).
Proof.
  intros Hh st. unfold try_catch.
  destruct (m st) as [[a|e] st1]; [now exists a, st1 | apply Hh].
Qed.

Lemma keeps_total {A} (m : M A) : keeps_storage m -> total m.
Proof. intros H st. destruct (H st) as (a & st' & E & _). now exists a, st'. Qed.

Lemma keeps_ret {A} (a : A) : keeps_storage (ret a).
Proof. intros st. now exists a, st. Qed.

Lemma keeps_bind {A B} (m : M A) (k : A -> M B) :
  keeps_storage m -> (forall a, keeps_storage (k a)) -> keeps_storage (bind m k).
Proof.
  intros Hm Hk st. destruct (Hm st) as (a & st1 & E & Hs).
  rewrite (bind_normal _ _ _ _ _ E).
  destruct (Hk a st1) as (b & st2 & E2 & Hs2).
  exists b, st2. split; [exact E2 | congruence].
Qed.

Lemma grows_ret P {A} (a : A) : grows P (ret a).
Proof. intros st. now exists []. Qed.

Lemma grows_throw P {A} (e : Thrown) : grows P (@throw Thrown A e).
Proof. intros st. now exists []. Qed.

Lemma grows_trans P {A B} (m : M A) (f : Completion A * State -> Completion B * State) :
  grows P m ->
  (forall r st1, exists calls,
      history (snd (f (r, st1))) = (calls ++ history st1)%list /\ Forall P calls) ->
  forall st, exists calls,
    history (snd (f (m st))) = (calls ++ history st)%list /\ Forall P calls.
Proof.
  intros Hm Hf st. destruct (Hm st) as (c1 & E1 & F1).
  destruct (m st) as [r st1]. destruct (Hf r st1) as (c2 & E2 & F2).
  exists (c2 ++ c1)%list. simpl in E1. rewrite E2, E1, app_assoc.
  split; [reflexivity | now apply Forall_app].
Qed.

Lemma grows_bind P {A B} (m : M A) (k : A -> M B) :
  grows P m -> (forall a, grows P (k a)) -> grows P (bind m k).
Proof.
  intros Hm Hk st. unfold bind.
  apply (grows_trans P m
           (fun rs => match rs with
                      | (Normal a, st') => k a st'
                      | (Throw e, st') => (Throw e, st')
                      end) Hm).
  intros [a|e] st1; [apply Hk | now exists []].
Qed.

Lemma grows_try P {A} (m : M A) (handler : Thrown -> M A) :
  grows P m -> (forall e, grows P (handler e)) -> grows P (try_catch m handler).
Proof.
  intros Hm Hh st. unfold try_catch.
  apply (grows_trans P m
           (fun rs => match rs with
                      | (Normal a, st') => (Normal a, st')
                      | (Throw e, st') => handler e st'
                      end) Hm).
  intros [a|e] st1; [now exists [] | apply Hh].
Qed.

Lemma grows_call P {A} (c : Call) (answer : list Call -> Completion A) :
  P c -> grows P (call c answer).
Proof. intros Hc st. exists [c]. split; [reflexivity | now constructor]. Qed.

Lemma renames_grown (calls old : list Call) :
  Forall (fun c => is_rename c = false) calls ->
  renames (calls ++ old) = renames old.
Proof.
  intros H. unfold renames. rewrite filter_app.
  induction H as [|c calls Hc _ IH]; [reflexivity|].
  simpl. now rewrite Hc.
Qed.

Lemma last_write_grown (calls old : list Call) :
  Forall not_write calls -> last_write (calls ++ old) = last_write old.
Proof.
  induction 1 as [|c calls Hc _ IH]; [reflexivity|].
  destruct c; try exact IH. contradiction.
Qed.

Lemma evaluations_grown (calls old : list Call) :
  Forall (fun c => is_evaluation c = false) calls ->
  evaluations (calls ++ old) = evaluations old.
Proof.
  intros H. unfold evaluations. rewrite filter_app.
  induction H as [|c calls Hc _ IH]; [reflexivity|].
  simpl. now rewrite Hc.
Qed.

(** ** Log, counters and storage *)

Section Components.

Variable env : Environment.

Lemma addLog_eq (message : LogMessage) (st : State) :
  addLog message st = (Normal tt, set_activityLogs (logged message st) st).
Proof.
  unfold addLog, logged. destruct st as [enabled logs f a b c s h].
  cbn [logsEnabled activityLogs]. destruct enabled; [|reflexivity].
  cbn [negb]. destruct (Nat.ltb_spec 50 (List.length (message :: logs))).
  - reflexivity.
  - now rewrite firstn_all2.
Qed.

Lemma keeps_addLog (message : LogMessage) : keeps_storage (addLog message).
Proof. intros st. rewrite addLog_eq. do 2 eexists. split; reflexivity. Qed.

Lemma grows_addLog P (message : LogMessage) : grows P (addLog message).
Proof. intros st. rewrite addLog_eq. now exists []. Qed.

Lemma updateCounts_eq (a b c : nat) (st : State) :
  updateCounts a b c st = (Normal tt, set_counts a b c st).
Proof. reflexivity. Qed.

Lemma keeps_updateCounts (a b c : nat) : keeps_storage (updateCounts a b c).
Proof. intros st. do 2 eexists. split; reflexivity. Qed.

Lemma grows_updateCounts P (a b c : nat) : grows P (updateCounts a b c).
Proof. intros st. now exists []. Qed.

(** Two entries in a row. *)
Lemma logged_twice (m1 m2 : LogMessage) (st : State) :
  logged m2 (set_activityLogs (logged m1 st) st)
  = if logsEnabled st then firstn 50 (m2 :: m1 :: activityLogs st)
    else activityLogs st.
Proof.
  unfold logged. cbn [logsEnabled activityLogs set_activityLogs].
  destruct (logsEnabled st); [|reflexivity].
  change (firstn 50 (m2 :: firstn 50 (m1 :: activityLogs st)))
    with (m2 :: firstn 49 (firstn 50 (m1 :: activityLogs st))).
  now rewrite firstn_firstn.
Qed.

Lemma getStorage_keeps : keeps_storage (getStorage env).
Proof.
  intros st. unfold getStorage, try_catch, bind, storage_get, ret.
  destruct (sdkInstance env); cbn [negb];
    [|do 2 eexists; split; reflexivity].
  destruct (storageGetError env (history st));
    [do 2 eexists; split; reflexivity|].
  destruct (storage st) eqn:Es; do 2 eexists;
    (split; [reflexivity | exact Es]).
Qed.

Lemma getStorage_grows P : P StorageGet -> grows P (getStorage env).
Proof.
  intros HP st. unfold getStorage, try_catch, bind, storage_get, ret.
  destruct (sdkInstance env); cbn [negb]; [|now exists []].
  destruct (storageGetError env (history st));
    [exists [StorageGet]; split; [reflexivity | now constructor]|].
  destruct (storage st);
    (exists [StorageGet]; split; [reflexivity | now constructor]).
Qed.

Lemma saveStorage_total (value : PluginStorage) : total (saveStorage env value).
Proof. apply total_try. intros e. apply total_ret. Qed.

Lemma saveStorage_grows P (value : PluginStorage) :
  P (StorageSet value) -> grows P (saveStorage env value).
Proof.
  intros HP st. unfold saveStorage, try_catch, storage_set, ret.
  destruct (sdkInstance env); cbn [negb]; [|now exists []].
  destruct (storageSetError env (history st) value);
    (exists [StorageSet value]; split; [reflexivity | now constructor]).
Qed.

(** A write the storage accepts leaves the ids it was given. *)
Lemma saveStorage_persists (value : PluginStorage) (st : State) :
  sdkInstance env = true ->
  storageSetError env (history st) value = None ->
  exists st', saveStorage env value st = (Normal tt, st')
              /\ persistedKnown st' = knownSessions value.
Proof.
  intros Hsdk Hset. unfold saveStorage, try_catch. rewrite Hsdk.
  cbn [negb]. unfold storage_set. rewrite Hset.
  eexists. split; reflexivity.
Qed.

Lemma getKnownSessions_keeps : keeps_storage (getKnownSessions env).
Proof.
  apply keeps_bind; [apply getStorage_keeps | intros a; apply keeps_ret].
Qed.

Lemma getKnownSessions_grows P :
  P StorageGet -> grows P (getKnownSessions env).
Proof.
  intros HP. apply grows_bind; [now apply getStorage_grows|].
  intros a. apply grows_ret.
Qed.

Lemma saveKnownSessions_total (sessions : list string) :
  total (saveKnownSessions env sessions).
Proof.
  apply total_bind; [apply keeps_total, getStorage_keeps|].
  intros a. apply saveStorage_total.
Qed.

Lemma saveKnownSessions_grows P (sessions : list string) :
  P StorageGet -> (forall v, P (StorageSet v)) ->
  grows P (saveKnownSessions env sessions).
Proof.
  intros Hget Hset. apply grows_bind; [now apply getStorage_grows|].
  intros a. now apply saveStorage_grows.
Qed.

Lemma saveKnownSessions_persists (sessions : list string) (st : State) :
  sdkInstance env = true ->
  (forall h v, storageSetError env h v = None) ->
  exists st', saveKnownSessions env sessions st = (Normal tt, st')
              /\ persistedKnown st' = sessions.
Proof.
  intros Hsdk Hset. unfold saveKnownSessions.
  destruct (getStorage_keeps st) as (stored & st1 & E & _).
  rewrite (bind_normal _ _ _ _ _ E).
  now apply saveStorage_persists.
Qed.

(** Saving hands the ids to the storage, whether it takes them or not. *)
Lemma saveKnownSessions_writes (sessions : list string) (st : State) :
  sdkInstance env = true ->
  exists value st',
    saveKnownSessions env sessions st = (Normal tt, st')
    /\ last_write (history st') = Some value
    /\ knownSessions value = sessions.
Proof.
  intros Hsdk. unfold saveKnownSessions.
  destruct (getStorage_keeps st) as (stored & st1 & E & _).
  rewrite (bind_normal _ _ _ _ _ E).
  unfold saveStorage, try_catch. rewrite Hsdk. cbn [negb].
  unfold storage_set.
  destruct (storageSetError env (history st1) _);
    do 2 eexists; (split; [reflexivity|]); split; reflexivity.
Qed.

(** The reset button empties the known set. *)
Lemma reset_clears_known (st : State) :
  sdkInstance env = true ->
  (forall h v, storageSetError env h v = None) ->
  persistedKnown (snd (onResetClick env st)) = [].
Proof.
  intros Hsdk Hset. unfold onResetClick, clearKnownSessions.
  destruct (getStorage_keeps st) as (stored & st1 & E & _).
  unfold bind at 1 2. rewrite E.
  destruct (saveStorage_persists
              (mkPluginStorage [] (customNamingFunction stored)
                               (pollingInterval stored)) st1 Hsdk (Hset _ _))
    as (st2 & Esave & Hknown).
  rewrite Esave. rewrite (bind_normal _ _ _ _ _ (addLog_eq _ _)).
  exact Hknown.
Qed.

End Components.

(** ** The name generator *)

Section Generator.

Variable env : Environment.

(** The [catch] block gets a message text from every thrown value but an
    [Error] object whose message cannot be converted to a string. *)
Lemma errorMessage_throws (error : UserThrown) (typeError : Thrown) :
  errorMessage error = Throw typeError ->
  error = UserError (Unconvertible typeError).
Proof.
  destruct error as [[text|e]| |message]; cbn; try discriminate.
  now intros [= ->].
Qed.

Lemma errorMessage_text (error : UserThrown) :
  (forall typeError, error <> UserError (Unconvertible typeError)) ->
  exists message, errorMessage error = Normal message.
Proof.
  intros Hsymbol. destruct (errorMessage error) as [message|typeError] eqn:E;
    [now exists message|].
  now destruct (Hsymbol typeError (errorMessage_throws _ _ E)).
Qed.

(** The run of [generateTabName], case by case. *)
Lemma generateTabName_eq (method path : string) (host : option string)
      (st : State) :
  generateTabName env method path host st
  = if truthy (trim (namingFunction st)) then
      let st1 :=
        record_call (RunUserFunction (namingFunction st) method path
                                     (host_or_empty host)) st in
      match userFunction env (history st) (namingFunction st) method path
                         (host_or_empty host) with
      | Normal (VString s) =>
          if truthy (trim s) then (Normal (trim s), st1)
          else (Normal (defaultTabName method path), st1)
      | Normal VOther => (Normal (defaultTabName method path), st1)
      | Throw error =>
          match errorMessage error with
          | Normal message =>
              (Normal (defaultTabName method path),
               set_activityLogs
                 (logged LogUsingDefault
                    (set_activityLogs
                       (logged (LogCustomFunctionError message) st1) st1))
                 (set_activityLogs
                    (logged (LogCustomFunctionError message) st1) st1))
          | Throw typeError => (Throw typeError, st1)
          end
      end
    else (Normal (defaultTabName method path), st).
Proof.
  unfold generateTabName, bind at 1, try_catch, tryCustomFunction.
  destruct (truthy (trim (namingFunction st))); [|reflexivity].
  unfold bind at 1, call.
  destruct (userFunction env (history st) (namingFunction st) method path
                         (host_or_empty host)) as [[s|]|error];
    try reflexivity.
  - now destruct (truthy (trim s)).
  - destruct (errorMessage error) as [message|typeError]; [|reflexivity].
    unfold bind. now rewrite !addLog_eq.
Qed.

Lemma defaultTabName_not_empty (method path : string) :
  defaultTabName method path <> "".
Proof.
  intros E. apply (f_equal String.length) in E. revert E.
  unfold defaultTabName. destruct (Z.ltb _ _);
    rewrite !length_app; cbn [String.length]; lia.
Qed.

(** What the generator returns is not empty. *)
Lemma generateTabName_not_empty (method path : string) (host : option string)
      (st : State) (tabName : string) (st' : State) :
  generateTabName env method path host st = (Normal tabName, st') ->
  tabName <> "".
Proof.
  rewrite generateTabName_eq.
  destruct (truthy (trim (namingFunction st)));
    [|intros [= <- _]; apply defaultTabName_not_empty].
  cbv zeta.
  destruct (userFunction env (history st) (namingFunction st) method path
                         (host_or_empty host)) as [[s|]|error].
  - destruct (truthy (trim s)) eqn:Hs; intros [= <- _];
      [now apply truthy_true | apply defaultTabName_not_empty].
  - intros [= <- _]. apply defaultTabName_not_empty.
  - destruct (errorMessage error) as [message|typeError];
      [intros [= <- _]; apply defaultTabName_not_empty | discriminate].
Qed.

(** The generator returns unless the [catch] block itself throws. *)
Lemma generateTabName_returns (method path : string) (host : option string)
      (st : State) :
  (forall error typeError,
     truthy (trim (namingFunction st)) = true ->
     userFunction env (history st) (namingFunction st) method path
                  (host_or_empty host) = Throw error ->
     errorMessage error <> Throw typeError) ->
  exists tabName st',
    generateTabName env method path host st = (Normal tabName, st').
Proof.
  intros Hprintable. rewrite generateTabName_eq.
  destruct (truthy (trim (namingFunction st))); [|now do 2 eexists].
  cbv zeta.
  destruct (userFunction env (history st) (namingFunction st) method path
                         (host_or_empty host)) as [[s|]|error];
    try (now do 2 eexists).
  - destruct (truthy (trim s)); now do 2 eexists.
  - specialize (Hprintable error).
    destruct (errorMessage error) as [message|typeError];
      [now do 2 eexists|].
    now destruct (Hprintable typeError).
Qed.

Lemma generateTabName_grows P (method path : string) (host : option string) :
  (forall source,
     P (RunUserFunction source method path (host_or_empty host))) ->
  grows P (generateTabName env method path host).
Proof.
  intros HP st. rewrite generateTabName_eq.
  destruct (truthy (trim (namingFunction st))); [|now exists []].
  cbv zeta.
  exists [RunUserFunction (namingFunction st) method path (host_or_empty host)].
  split; [|now constructor].
  destruct (userFunction env (history st) (namingFunction st) method path
                         (host_or_empty host)) as [[s|]|error];
    try reflexivity.
  - now destruct (truthy (trim s)).
  - now destruct (errorMessage error).
Qed.

(** What the generator does when the user function throws a value whose
    message the [catch] block can render. *)
Lemma generateTabName_fallback (method path : string) (host : option string)
      (st : State) (error : UserThrown) (message : string) :
  truthy (trim (namingFunction st)) = true ->
  userFunction env (history st) (namingFunction st) method path
               (host_or_empty host) = Throw error ->
  errorMessage error = Normal message ->
  fst (generateTabName env method path host st)
  = Normal (defaultTabName method path)
  /\ activityLogs (snd (generateTabName env method path host st))
     = if logsEnabled st
       then firstn 50 (LogUsingDefault
                       :: LogCustomFunctionError message
                       :: activityLogs st)
       else activityLogs st.
Proof.
  intros Hsource Hthrow Hmessage.
  rewrite generateTabName_eq, Hsource. cbv zeta.
  rewrite Hthrow, Hmessage. split; [reflexivity|].
  cbn [snd activityLogs set_activityLogs].
  exact (logged_twice _ LogUsingDefault (record_call _ st)).
Qed.

(** When the message cannot be converted, the error of the conversion
    leaves the generator, after the evaluation and before any log
    entry. *)
Lemma generateTabName_throws (method path : string) (host : option string)
      (st : State) (error : UserThrown) (typeError : Thrown) :
  truthy (trim (namingFunction st)) = true ->
  userFunction env (history st) (namingFunction st) method path
               (host_or_empty host) = Throw error ->
  errorMessage error = Throw typeError ->
  generateTabName env method path host st
  = (Throw typeError,
     record_call (RunUserFunction (namingFunction st) method path
                                  (host_or_empty host)) st).
Proof.
  intros Hsource Hthrow Hmessage.
  rewrite generateTabName_eq, Hsource. cbv zeta.
  now rewrite Hthrow, Hmessage.
Qed.

End Generator.

(** ** Session details *)

Section Details.

Variable env : Environment.

Lemma getSessionDetails_eq (sessionId : string) (st : State) :
  getSessionDetails env sessionId st
  = if sdkInstance env && has_token env (history st)
    then (Normal (answeredEntry env (history st) sessionId),
          record_call (PostGraphql sessionId) st)
    else (Normal None, st).
Proof.
  unfold getSessionDetails, try_catch, has_token, answeredEntry.
  destruct (sdkInstance env); cbn [negb andb]; [|reflexivity].
  unfold bind at 1, read_accessToken.
  destruct (authentication env (history st)) as [token|]; [|reflexivity].
  destruct (truthy token); [|reflexivity].
  unfold bind at 1, queryActiveEntry, try_catch, bind, call.
  destruct (fetch env (history st) sessionId) as [[[] body]|error];
    try reflexivity.
  now destruct body.
Qed.

Lemma getSessionDetails_total (sessionId : string) :
  total (getSessionDetails env sessionId).
Proof.
  intros st. rewrite getSessionDetails_eq.
  destruct (_ && _); now do 2 eexists.
Qed.

Lemma getSessionDetails_grows P (sessionId : string) :
  P (PostGraphql sessionId) -> grows P (getSessionDetails env sessionId).
Proof.
  intros HP st. rewrite getSessionDetails_eq.
  destruct (_ && _); [|now exists []].
  exists [PostGraphql sessionId]. split; [reflexivity | now constructor].
Qed.

(** A turn of the loop for a session without details: two log entries
    around the lookup, and nothing else. *)
Lemma trySession_skip (session : Session) (renamedCount : nat) (st : State)
      (entry : option Entry) (st1 : State) :
  getSessionDetails env (id session)
    (set_activityLogs (logged (LogProcessing (id session)) st) st)
  = (Normal entry, st1) ->
  has_raw entry = false ->
  trySession env session renamedCount st
  = (Normal renamedCount,
     set_activityLogs (logged (LogNoDetails (id session)) st1) st1).
Proof.
  intros Hdetails Hraw. unfold trySession, processSession.
  apply try_normal.
  rewrite (bind_normal _ _ _ _ _ (addLog_eq _ _)).
  rewrite (bind_normal _ _ _ _ _ Hdetails).
  destruct entry as [e|];
    [cbn [has_raw] in Hraw; destruct (raw e); try discriminate|];
    now rewrite (bind_normal _ _ _ _ _ (addLog_eq _ _)).
Qed.

End Details.

Example end_to_end_scenario :
  let st' := snd (checkAndRenameReplayTabs env_scenario freshState) in
  renames (history st') = [RenameSession "a" "GET /foo/bar"]
  /\ persistedKnown st' = ["a"].
Proof. split; reflexivity. Qed.

(** ** C1: sessions without details *)

Lemma no_details_has_raw (env : Environment) (session : Session) (st : State) :
  no_details env session st ->
  (if sdkInstance env && has_token env (history st)
   then has_raw (answeredEntry env (history st) (id session))
   else false) = false.
Proof.
  unfold no_details, answeredEntry.
  intros [Htoken|[Hfetch|(entry & Hfetch & Hraw)]].
  - now rewrite Htoken, andb_false_r.
  - rewrite Hfetch. now destruct (_ && _).
  - rewrite Hfetch. cbn [ok json has_raw]. rewrite Hraw. now destruct (_ && _).
Qed.

Lemma request_fails_fallback (env : Environment) (session : Session)
      (st : State) :
  request_fails env session st ->
  answeredEntry env (history st) (id session)
  = Some (fallbackEntry (id session)).
Proof.
  unfold request_fails, answeredEntry.
  intros [(error & ->)|(response & -> & [Hok|Hjson])]; [reflexivity| |].
  - now rewrite Hok.
  - rewrite Hjson. now destruct (ok response).
Qed.

(** C1, as stated, fails: when the GraphQL request throws, the session is
    not skipped; the fallback entry is parsed and the tab is renamed
    [GET /api/fallback]. *)
Lemma fetch_failure_counterexample :
  fetch env_fetch_fails (history freshState) (id session_a)
  = Throw (ThrownError "Failed to fetch")
  /\ renames (history (snd (trySession env_fetch_fails session_a 0 freshState)))
     = [RenameSession "a" "GET /api/fallback"]
  /\ renames (history (snd (checkAndRenameReplayTabs env_fetch_fails freshState)))
     = [RenameSession "a" "GET /api/fallback"].
Proof. repeat split. Qed.

(** C1, amended: when the lookup of a session's details gives no entry
    (no access token, or an accepted response without active entry) or an
    entry without raw payload, the turn of the loop is the call of
    [addLog] for the start, the lookup and the call of [addLog] for the
    missing details, and nothing else: the counter of renamed sessions is
    unchanged, no user function is run, the rename API is not called, and
    with logs enabled the two entries are on top of the log (with logs
    disabled the log is unchanged).  When instead the request throws, is
    refused or has a malformed body, the lookup gives the fallback entry
    and the session is processed with it. *)
Theorem no_details_skip (env : Environment) (session : Session)
        (renamedCount : nat) (st : State) :
  (no_details env session st ->
   let st' := snd (trySession env session renamedCount st) in
   trySession env session renamedCount st
   = (addLog (LogProcessing (id session)) ;;
      _ <- getSessionDetails env (id session) ;;
      addLog (LogNoDetails (id session)) ;;
      ret renamedCount) st
   /\ fst (trySession env session renamedCount st) = Normal renamedCount
   /\ renames (history st') = renames (history st)
   /\ evaluations (history st') = evaluations (history st)
   /\ activityLogs st'
      = if logsEnabled st
        then firstn 50 (LogNoDetails (id session)
                        :: LogProcessing (id session) :: activityLogs st)
        else activityLogs st)
  /\ (sdkInstance env = true -> has_token env (history st) = true ->
      request_fails env session st ->
      fst (getSessionDetails env (id session) st)
      = Normal (Some (fallbackEntry (id session)))).
Proof.
  split.
  - intros Hno. pose proof (no_details_has_raw env session st Hno) as Hraw.
    pose proof (getSessionDetails_eq env (id session)
                  (set_activityLogs (logged (LogProcessing (id session)) st) st))
      as Hdetails.
    cbn [history set_activityLogs] in Hdetails.
    assert (Hskip :
      exists entry st1,
        getSessionDetails env (id session)
          (set_activityLogs (logged (LogProcessing (id session)) st) st)
        = (Normal entry, st1)
        /\ has_raw entry = false
        /\ renames (history st1) = renames (history st)
        /\ evaluations (history st1) = evaluations (history st)
        /\ logsEnabled st1 = logsEnabled st
        /\ activityLogs st1 = logged (LogProcessing (id session)) st).
    { destruct (sdkInstance env && has_token env (history st));
        do 2 eexists; (split; [exact Hdetails|]); repeat split; assumption. }
    destruct Hskip as (entry & st1 & Hd & Hr & Hren & Hev & Hen & Hlogs).
    rewrite (trySession_skip env session renamedCount st entry st1 Hd Hr).
    cbn [fst snd history activityLogs set_activityLogs].
    repeat split; try assumption.
    + rewrite (bind_normal _ _ _ _ _ (addLog_eq _ _)).
      rewrite (bind_normal _ _ _ _ _ Hd).
      now rewrite (bind_normal _ _ _ _ _ (addLog_eq _ _)).
    + unfold logged at 1. rewrite Hen, Hlogs. unfold logged.
      destruct (logsEnabled st); [|reflexivity].
      change (firstn 50 (?a :: firstn 50 ?l)) with (a :: firstn 49 (firstn 50 l)).
      now rewrite firstn_firstn.
  - intros Hsdk Htoken Hfails. rewrite getSessionDetails_eq, Hsdk, Htoken.
    cbn [andb fst]. now rewrite (request_fails_fallback env session st Hfails).
Qed.

Lemma no_details_skip_witness :
  no_details env_no_entry session_a freshState
  /\ renames (history (snd (trySession env_no_entry session_a 0 freshState)))
     = renames (history freshState).
Proof.
  assert (H : no_details env_no_entry session_a freshState)
    by (right; left; reflexivity).
  split; [exact H|].
  exact (proj1 (proj2 (proj2
           (proj1 (no_details_skip env_no_entry session_a 0 freshState) H)))).
Defined.

(** ** C6: no redundant rename *)

Lemma renames_unchanged {A} (m : M A) (st : State) :
  grows not_rename m ->
  renames (history (snd (m st))) = renames (history st).
Proof.
  intros Hm. destruct (Hm st) as (calls & E & F). rewrite E.
  now apply renames_grown.
Qed.

(** C6: in a turn of the loop where the details are found, the payload
    decodes and parses, and the generated name equals the current name of
    the session, the rename API is not called: the turn ends with the
    history the name generator left, the renames in it are those before
    the turn, and the counter of renamed sessions is unchanged. *)
Theorem no_redundant_rename (env : Environment) (session : Session)
        (renamedCount : nat) (st st1 st2 : State) (entry : Entry)
        (decoded : string) (requestInfo : ParsedRequest) (newName : string) :
  getSessionDetails env (id session)
    (snd (addLog (LogProcessing (id session)) st))
  = (Normal (Some entry), st1) ->
  raw entry = RawBase64 decoded ->
  parseRawRequest decoded = Some requestInfo ->
  generateTabName env (method requestInfo) (path requestInfo) None st1
  = (Normal newName, st2) ->
  currentNameOf entry session = newName ->
  let st' := snd (trySession env session renamedCount st) in
  fst (trySession env session renamedCount st) = Normal renamedCount
  /\ history st' = history st2
  /\ renames (history st') = renames (history st).
Proof.
  intros Hdetails Hraw Hparse Hname Hsame.
  assert (Hrun :
    trySession env session renamedCount st
    = (Normal renamedCount,
       set_activityLogs (logged (LogAlreadyCorrect (id session)) st2) st2)).
  { unfold trySession, processSession. apply try_normal.
    rewrite addLog_eq in Hdetails. cbn [snd] in Hdetails.
    rewrite (bind_normal _ _ _ _ _ (addLog_eq _ _)).
    rewrite (bind_normal _ _ _ _ _ Hdetails). rewrite Hraw. cbv iota.
    unfold atob. rewrite (bind_normal _ _ st1 decoded st1 eq_refl).
    rewrite Hparse. rewrite (bind_normal _ _ _ _ _ Hname).
    rewrite Hsame, String.eqb_refl.
    now rewrite (bind_normal _ _ _ _ _ (addLog_eq _ _)). }
  cbv zeta. rewrite Hrun. cbn [fst snd history set_activityLogs].
  repeat split.
  assert (H1 : renames (history st1) = renames (history st)).
  { pose proof (renames_unchanged
                  (getSessionDetails env (id session))
                  (snd (addLog (LogProcessing (id session)) st))
                  (getSessionDetails_grows env not_rename (id session) eq_refl))
      as H.
    rewrite Hdetails in H. rewrite addLog_eq in H. exact H. }
  pose proof (renames_unchanged
                (generateTabName env (method requestInfo) (path requestInfo)
                                 None) st1
                (generateTabName_grows env not_rename _ _ None
                                       (fun _ => eq_refl))) as H2.
  rewrite Hname in H2. cbn [snd] in H2. congruence.
Qed.

Lemma no_redundant_rename_witness :
  renames (history (snd (trySession env_already_named session_a 0 freshState)))
  = renames (history freshState).
Proof.
  refine (proj2 (proj2
    (no_redundant_rename env_already_named session_a 0 freshState
       (snd (getSessionDetails env_already_named "a"
               (snd (addLog (LogProcessing "a") freshState))))
       (snd (getSessionDetails env_already_named "a"
               (snd (addLog (LogProcessing "a") freshState))))
       (mkEntry (RawBase64 request_foo) (Some "GET /foo/bar"))
       request_foo (mkParsedRequest "GET" "/foo/bar?x=1" "h.test")
       "GET /foo/bar" _ _ _ _ _))); reflexivity.
Defined.

(** ** The loop and the cycle *)

Section Cycle.

Variable env : Environment.

Lemma trySession_total (session : Session) (renamedCount : nat) :
  total (trySession env session renamedCount).
Proof.
  apply total_try. intros e.
  apply total_bind; [apply keeps_total, keeps_addLog|].
  intros _. apply total_ret.
Qed.

Lemma forEachSession_total (newSessions : list Session) (renamedCount : nat) :
  total (forEachSession env newSessions renamedCount).
Proof.
  revert renamedCount.
  induction newSessions as [|session rest IH]; intros renamedCount.
  - apply total_ret.
  - apply total_bind; [apply trySession_total | exact IH].
Qed.

(** Every call of a turn of the loop that runs user code passes the empty
    host. *)
Lemma processSession_host (session : Session) (renamedCount : nat) :
  grows host_is_empty (processSession env session renamedCount).
Proof.
  unfold processSession.
  apply grows_bind; [apply grows_addLog|]. intros _.
  apply grows_bind; [now apply getSessionDetails_grows|].
  intros [entry|];
    [|apply grows_bind; [apply grows_addLog | intros _; apply grows_ret]].
  assert (Hparsed : forall decoded,
    grows host_is_empty
      match parseRawRequest decoded with
      | Some requestInfo =>
          newName <- generateTabName env (method requestInfo)
                                     (path requestInfo) None ;;
          if String.eqb (currentNameOf entry session) newName then
            addLog (LogAlreadyCorrect (id session)) ;; ret renamedCount
          else
            call (RenameSession (id session) newName)
                 (fun h => renameSession env h (id session) newName) ;;
            addLog (LogRenamed (id session) newName) ;;
            addLog (LogRequest (method requestInfo) (host requestInfo)
                               (path requestInfo)) ;;
            ret (S renamedCount)
      | None => addLog (LogCannotParse (id session)) ;; ret renamedCount
      end).
  { intros decoded. destruct (parseRawRequest decoded) as [requestInfo|];
      [|apply grows_bind; [apply grows_addLog | intros _; apply grows_ret]].
    apply grows_bind; [apply generateTabName_grows; intros; reflexivity|].
    intros newName. destruct (String.eqb _ _).
    - apply grows_bind; [apply grows_addLog | intros _; apply grows_ret].
    - apply grows_bind; [now apply grows_call|]. intros _.
      apply grows_bind; [apply grows_addLog|]. intros _.
      apply grows_bind; [apply grows_addLog | intros _; apply grows_ret]. }
  destruct (raw entry).
  - apply grows_bind; [apply grows_addLog | intros _; apply grows_ret].
  - apply grows_bind; [apply grows_throw | exact Hparsed].
  - apply grows_bind; [apply grows_ret | exact Hparsed].
Qed.

Lemma trySession_host (session : Session) (renamedCount : nat) :
  grows host_is_empty (trySession env session renamedCount).
Proof.
  apply grows_try; [apply processSession_host|]. intros e.
  apply grows_bind; [apply grows_addLog | intros _; apply grows_ret].
Qed.

Lemma forEachSession_host (newSessions : list Session) (renamedCount : nat) :
  grows host_is_empty (forEachSession env newSessions renamedCount).
Proof.
  revert renamedCount.
  induction newSessions as [|session rest IH]; intros renamedCount.
  - apply grows_ret.
  - apply grows_bind; [apply trySession_host | exact IH].
Qed.

Lemma cycle_host : grows host_is_empty (checkAndRenameReplayTabs env).
Proof.
  apply grows_try; [|intros e; apply grows_addLog].
  unfold cycleBody. destruct (sdkInstance env); cbn [negb];
    [|apply grows_addLog].
  apply grows_bind; [apply grows_addLog|]. intros _.
  apply grows_bind; [now apply grows_call|].
  assert (Hnone : grows host_is_empty (addLog LogNoSessions ;; updateCounts 0 0 0))
    by (apply grows_bind; [apply grows_addLog | intros _; apply grows_updateCounts]).
  intros [[|session sessions]|]; try exact Hnone.
  apply grows_bind; [now apply getKnownSessions_grows|]. intros knownSessions.
  cbv zeta.
  apply grows_bind; [apply grows_addLog|]. intros _.
  apply grows_bind; [apply grows_updateCounts|]. intros _.
  destruct (Nat.eqb _ 0).
  - apply grows_bind; [apply grows_addLog|]. intros _.
    now apply saveKnownSessions_grows.
  - apply grows_bind; [apply forEachSession_host|]. intros renamedCount.
    apply grows_bind; [now apply saveKnownSessions_grows|]. intros _.
    apply grows_bind; [apply grows_addLog|]. intros _.
    apply grows_bind;
      [destruct (Nat.ltb 0 renamedCount);
       [apply grows_addLog | apply grows_ret]|].
    intros _. apply grows_bind; [now apply getKnownSessions_grows|].
    intros finalKnown. apply grows_updateCounts.
Qed.

(** The end of the cycle, after the ids were saved. *)
Lemma cycle_end_keeps (size renamedCount total : nat) :
  keeps_storage
    (addLog (LogSaved size) ;;
     (if Nat.ltb 0 renamedCount
      then addLog (LogRenamedCount renamedCount) else ret tt) ;;
     finalKnown <- getKnownSessions env ;;
     updateCounts total (List.length finalKnown) 0).
Proof.
  apply keeps_bind; [apply keeps_addLog|]. intros _.
  apply keeps_bind;
    [destruct (Nat.ltb 0 renamedCount); [apply keeps_addLog | apply keeps_ret]|].
  intros _. apply keeps_bind; [apply getKnownSessions_keeps|].
  intros finalKnown. apply keeps_updateCounts.
Qed.

(** A cycle over a listing that is not empty runs to its end and leaves
    the ids of the listing in the storage, when the storage takes the
    write. *)
Lemma cycle_persists (st : State) (sessions : list Session) :
  sdkInstance env = true ->
  getSessions env (history st) = Normal (Some sessions) ->
  sessions <> [] ->
  (forall h v, storageSetError env h v = None) ->
  exists st',
    cycleBody env st = (Normal tt, st')
    /\ persistedKnown st' = new_Set (map id sessions).
Proof.
  intros Hsdk Hlist Hne Hset. unfold cycleBody. rewrite Hsdk. cbn [negb].
  rewrite (bind_normal _ _ _ _ _ (addLog_eq _ _)).
  assert (Hcall :
    call GetSessions (getSessions env)
         (set_activityLogs (logged LogChecking st) st)
    = (Normal (Some sessions),
       record_call GetSessions (set_activityLogs (logged LogChecking st) st)))
    by (unfold call; cbn [history set_activityLogs]; now rewrite Hlist).
  rewrite (bind_normal _ _ _ _ _ Hcall).
  destruct sessions as [|session rest]; [contradiction|].
  set (sessions := session :: rest).
  destruct (getKnownSessions_keeps env
              (record_call GetSessions
                 (set_activityLogs (logged LogChecking st) st)))
    as (known & st2 & Eknown & _).
  rewrite (bind_normal _ _ _ _ _ Eknown). cbv zeta.
  rewrite (bind_normal _ _ _ _ _ (addLog_eq _ _)).
  rewrite (bind_normal _ _ _ _ _ (updateCounts_eq _ _ _ _)).
  destruct (Nat.eqb _ 0).
  - rewrite (bind_normal _ _ _ _ _ (addLog_eq _ _)).
    now apply saveKnownSessions_persists.
  - match goal with
    | |- context [forEachSession env ?l 0] =>
        destruct (forEachSession_total l 0
                    (set_counts (List.length sessions) (List.length known)
                       (List.length l)
                       (set_activityLogs
                          (logged (LogCounts (List.length sessions)
                                             (List.length known)
                                             (List.length l)) st2) st2)))
          as (renamedCount & st3 & Eloop)
    end.
    rewrite (bind_normal _ _ _ _ _ Eloop).
    destruct (saveKnownSessions_persists env (new_Set (map id sessions)) st3
                Hsdk Hset) as (st4 & Esave & Hknown).
    rewrite (bind_normal _ _ _ _ _ Esave).
    destruct (cycle_end_keeps (List.length (new_Set (map id sessions)))
                renamedCount (List.length sessions) st4)
      as ([] & st5 & Eend & Hstorage).
    exists st5. split; [exact Eend|].
    unfold persistedKnown in *. now rewrite Hstorage.
Qed.

Lemma cycle_end_no_write (size renamedCount total : nat) :
  grows not_write
    (addLog (LogSaved size) ;;
     (if Nat.ltb 0 renamedCount
      then addLog (LogRenamedCount renamedCount) else ret tt) ;;
     finalKnown <- getKnownSessions env ;;
     updateCounts total (List.length finalKnown) 0).
Proof.
  apply grows_bind; [apply grows_addLog|]. intros _.
  apply grows_bind;
    [destruct (Nat.ltb 0 renamedCount); [apply grows_addLog | apply grows_ret]|].
  intros _. apply grows_bind; [now apply getKnownSessions_grows|].
  intros finalKnown. apply grows_updateCounts.
Qed.

(** A cycle over a listing that is not empty runs to its end, and its last
    write to the storage carries the ids of the listing. *)
Lemma cycle_writes (st : State) (sessions : list Session) :
  sdkInstance env = true ->
  getSessions env (history st) = Normal (Some sessions) ->
  sessions <> [] ->
  exists value st',
    cycleBody env st = (Normal tt, st')
    /\ last_write (history st') = Some value
    /\ knownSessions value = new_Set (map id sessions).
Proof.
  intros Hsdk Hlist Hne. unfold cycleBody. rewrite Hsdk. cbn [negb].
  rewrite (bind_normal _ _ _ _ _ (addLog_eq _ _)).
  assert (Hcall :
    call GetSessions (getSessions env)
         (set_activityLogs (logged LogChecking st) st)
    = (Normal (Some sessions),
       record_call GetSessions (set_activityLogs (logged LogChecking st) st)))
    by (unfold call; cbn [history set_activityLogs]; now rewrite Hlist).
  rewrite (bind_normal _ _ _ _ _ Hcall).
  destruct sessions as [|session rest]; [contradiction|].
  set (sessions := session :: rest).
  destruct (getKnownSessions_keeps env
              (record_call GetSessions
                 (set_activityLogs (logged LogChecking st) st)))
    as (known & st2 & Eknown & _).
  rewrite (bind_normal _ _ _ _ _ Eknown). cbv zeta.
  rewrite (bind_normal _ _ _ _ _ (addLog_eq _ _)).
  rewrite (bind_normal _ _ _ _ _ (updateCounts_eq _ _ _ _)).
  destruct (Nat.eqb _ 0).
  - rewrite (bind_normal _ _ _ _ _ (addLog_eq _ _)).
    now apply saveKnownSessions_writes.
  - match goal with
    | |- context [forEachSession env ?l 0] =>
        destruct (forEachSession_total l 0
                    (set_counts (List.length sessions) (List.length known)
                       (List.length l)
                       (set_activityLogs
                          (logged (LogCounts (List.length sessions)
                                             (List.length known)
                                             (List.length l)) st2) st2)))
          as (renamedCount & st3 & Eloop)
    end.
    rewrite (bind_normal _ _ _ _ _ Eloop).
    destruct (saveKnownSessions_writes env (new_Set (map id sessions)) st3 Hsdk)
      as (value & st4 & Esave & Hwrite & Hknown).
    rewrite (bind_normal _ _ _ _ _ Esave).
    destruct (cycle_end_keeps (List.length (new_Set (map id sessions)))
                renamedCount (List.length sessions) st4)
      as ([] & st5 & Eend & _).
    destruct (cycle_end_no_write (List.length (new_Set (map id sessions)))
                renamedCount (List.length sessions) st4)
      as (calls & Ecalls & Hcalls).
    rewrite Eend in Ecalls. cbn [snd] in Ecalls.
    exists value, st5. split; [exact Eend|]. split; [|exact Hknown].
    rewrite Ecalls, last_write_grown by assumption. exact Hwrite.
Qed.

(** A cycle over an empty listing leaves the storage as it is. *)
Lemma cycle_empty_listing (st : State) :
  sdkInstance env = true ->
  (getSessions env (history st) = Normal None
   \/ getSessions env (history st) = Normal (Some [])) ->
  exists st',
    cycleBody env st = (Normal tt, st') /\ storage st' = storage st.
Proof.
  intros Hsdk Hlist. unfold cycleBody. rewrite Hsdk. cbn [negb].
  rewrite (bind_normal _ _ _ _ _ (addLog_eq _ _)).
  unfold bind at 1, call. cbn [history set_activityLogs].
  destruct Hlist as [-> | ->];
    rewrite (bind_normal _ _ _ _ _ (addLog_eq _ _));
    eexists; split; reflexivity.
Qed.

End Cycle.

Lemma new_Set_In (l : list string) (x : string) : In x (new_Set l) <-> In x l.
Proof.
  induction l as [|y l IH]; [reflexivity|].
  cbn [new_Set In]. rewrite filter_In, IH.
  destruct (String.eqb_spec y x) as [->|Hne]; cbn [negb].
  - split; [now left | intros _; now left].
  - split; [intros [H|[H _]]; auto | intros [H|H]; auto].
Qed.

(** ** C4 and C3: the known set after a cycle *)






(** ** C5: the custom function throws *)




(** ** C10: the host is not passed on *)

(** C10: every evaluation of user code a cycle adds to the history is
    given the empty string as host; so it is in a cycle whose request has
    the header [Host: h.test], which the parser extracts. *)
Theorem host_not_passed_to_generator :
  (forall env st,
     exists calls,
       history (snd (checkAndRenameReplayTabs env st))
       = (calls ++ history st)%list
       /\ Forall host_is_empty calls)
  /\ (forall env method path st,
        evaluations (history (snd (generateTabName env method path None st)))
        = evaluations (history st)
        \/ evaluations (history (snd (generateTabName env method path None st)))
           = RunUserFunction (namingFunction st) method path ""
             :: evaluations (history st))
  /\ option_map host (parseRawRequest request_foo) = Some "h.test"
  /\ evaluations
       (history (snd (checkAndRenameReplayTabs env_echo state_echo)))
     = [RunUserFunction (namingFunction state_echo) "GET" "/foo/bar?x=1" ""]
  /\ renames (history (snd (checkAndRenameReplayTabs env_echo state_echo)))
     = [RenameSession "a" "[] /foo/bar?x=1"].
Proof.
  split; [exact cycle_host|]. split; [|repeat split].
  intros env method path st. rewrite generateTabName_eq.
  destruct (truthy (trim (namingFunction st))); [|now left].
  right. cbv zeta.
  destruct (userFunction env (history st) (namingFunction st) method path
                         (host_or_empty None)) as [[s|]|error];
    try reflexivity.
  - now destruct (truthy (trim s)).
  - now destruct (errorMessage error).
Qed.

(** ** The stand-alone variant *)

(** With [throw null] as custom source the [catch] block of this variant
    throws in its turn: the generator does not return a name.  The
    component's generator, on the same input, returns the default name. *)
Lemma standalone_generator_throws (logContainer : bool)
      (nullishTypeError : Thrown) :
  fst (Standalone.generateTabName env_throwing_null logContainer
         nullishTypeError "GET" "/foo" None state_throw_null)
  = Throw nullishTypeError
  /\ fst (generateTabName env_throwing_null "GET" "/foo" None state_throw_null)
     = Normal "GET /foo".
Proof. split; reflexivity. Qed.

(** In this variant a request that throws gives no entry. *)
Lemma standalone_details_no_fallback (env : Environment)
      (sessionId : string) (st : State) (error : Thrown) :
  fetch env (history st) sessionId = Throw error ->
  fst (Standalone.getSessionDetails env sessionId st) = Normal None.
Proof.
  intros Hfetch.
  unfold Standalone.getSessionDetails, try_catch, bind, read_accessToken.
  destruct (authentication env (history st)) as [token|]; [|reflexivity].
  destruct (truthy token); [|reflexivity].
  unfold call. now rewrite Hfetch.
Qed.

(** * Further properties *)

(** ** The parser and line endings *)

Lemma not_cr_replace_crlf (c : ascii) (r : string) :
  code_is 13 c = false ->
  replace_crlf (String c r) = String c (replace_crlf r).
Proof.
  intros Hc. destruct r as [|d r']; [reflexivity|].
  rewrite replace_crlf_two, Hc. reflexivity.
Qed.

Lemma line_terminator_split (c : ascii) :
  is_line_terminator c = false -> code_is 10 c = false /\ code_is 13 c = false.
Proof. unfold is_line_terminator. intros H. now apply orb_false_iff in H. Qed.

Lemma replace_crlf_no_break (s : string) :
  has_line_terminator s = false -> replace_crlf s = s.
Proof.
  induction s as [|c r IH]; [reflexivity|]. cbn [has_line_terminator].
  intros H. apply orb_false_iff in H as [Hc Hr].
  destruct (line_terminator_split c Hc) as [_ Hcr].
  rewrite (not_cr_replace_crlf c r Hcr). now rewrite IH.
Qed.

Lemma replace_cr_no_break (s : string) :
  has_line_terminator s = false -> replace_cr s = s.
Proof.
  induction s as [|c r IH]; [reflexivity|]. cbn [has_line_terminator].
  intros H. apply orb_false_iff in H as [Hc Hr].
  destruct (line_terminator_split c Hc) as [_ Hcr].
  simpl. now rewrite Hcr, IH.
Qed.

Lemma split_lf_no_break (s : string) :
  has_line_terminator s = false -> split_lf s = [s].
Proof.
  induction s as [|c r IH]; [reflexivity|]. cbn [has_line_terminator].
  intros H. apply orb_false_iff in H as [Hc Hr].
  destruct (line_terminator_split c Hc) as [Hlf _].
  simpl. now rewrite Hlf, IH.
Qed.

Lemma lines_of_no_break (s : string) :
  has_line_terminator s = false -> lines_of s = [s].
Proof.
  intros H. unfold lines_of, normalize.
  rewrite (replace_crlf_no_break s H), (replace_cr_no_break s H).
  now apply split_lf_no_break.
Qed.

(** A line and what follows it, for each of the three line endings. *)
Lemma lines_of_crlf (line rest : string) :
  has_line_terminator line = false ->
  lines_of (line ++ CRLF ++ rest) = line :: lines_of rest.
Proof. intros H. now rewrite lines_of_app, (lines_of_no_break line H). Qed.

Lemma replace_crlf_before_lf (line rest : string) :
  has_line_terminator line = false ->
  replace_crlf (line ++ LF ++ rest) = line ++ LF ++ replace_crlf rest.
Proof.
  induction line as [|c r IH]; cbn [has_line_terminator].
  - intros _. change ("" ++ LF ++ rest) with (String (ascii_of_nat 10) rest).
    now rewrite not_cr_replace_crlf.
  - intros H. apply orb_false_iff in H as [Hc Hr].
    destruct (line_terminator_split c Hc) as [_ Hcr].
    change (String c r ++ LF ++ rest) with (String c (r ++ LF ++ rest)).
    rewrite (not_cr_replace_crlf c _ Hcr), IH by assumption. reflexivity.
Qed.

Lemma lines_of_lf (line rest : string) :
  has_line_terminator line = false ->
  lines_of (line ++ LF ++ rest) = line :: lines_of rest.
Proof.
  intros H. unfold lines_of, normalize.
  rewrite replace_crlf_before_lf, !replace_cr_app by assumption.
  change (replace_cr LF) with LF.
  rewrite split_lf_app, (replace_cr_no_break line H), (split_lf_no_break line H).
  reflexivity.
Qed.

Lemma replace_crlf_lone_cr (rest : string) :
  starts_with_lf rest = false ->
  replace_crlf (CR ++ rest) = CR ++ replace_crlf rest.
Proof.
  intros H. destruct rest as [|d r]; [reflexivity|].
  change (CR ++ String d r) with (String (ascii_of_nat 13) (String d r)).
  rewrite replace_crlf_two. cbn [starts_with_lf] in H. rewrite H.
  now rewrite andb_false_r.
Qed.

Lemma replace_crlf_before_cr (line rest : string) :
  has_line_terminator line = false ->
  starts_with_lf rest = false ->
  replace_crlf (line ++ CR ++ rest) = line ++ CR ++ replace_crlf rest.
Proof.
  intros Hline Hrest. induction line as [|c r IH].
  - now apply replace_crlf_lone_cr.
  - cbn [has_line_terminator] in Hline.
    apply orb_false_iff in Hline as [Hc Hr].
    destruct (line_terminator_split c Hc) as [_ Hcr].
    change (String c r ++ CR ++ rest) with (String c (r ++ CR ++ rest)).
    rewrite (not_cr_replace_crlf c _ Hcr), IH by assumption. reflexivity.
Qed.

Lemma lines_of_cr (line rest : string) :
  has_line_terminator line = false ->
  starts_with_lf rest = false ->
  lines_of (line ++ CR ++ rest) = line :: lines_of rest.
Proof.
  intros Hline Hrest. unfold lines_of, normalize.
  rewrite replace_crlf_before_cr, !replace_cr_app by assumption.
  change (replace_cr CR) with LF.
  rewrite split_lf_app, (replace_cr_no_break line Hline),
    (split_lf_no_break line Hline).
  reflexivity.
Qed.

Lemma concat_cr_no_lf (lines : list string) :
  Forall (fun line => has_line_terminator line = false) lines ->
  starts_with_lf (String.concat CR lines) = false.
Proof.
  intros H. destruct H as [|line rest Hline Hrest]; [reflexivity|].
  assert (Hfirst : forall tail, starts_with_lf (line ++ CR ++ tail) = false).
  { intros tail. destruct line as [|c r]; [reflexivity|].
    cbn [has_line_terminator] in Hline.
    apply orb_false_iff in Hline as [Hc _].
    now destruct (line_terminator_split c Hc). }
  destruct rest as [|next rest]; cbn [String.concat]; [|apply Hfirst].
  specialize (Hfirst ""). destruct line as [|c r]; [reflexivity|].
  exact Hfirst.
Qed.

(** Lines joined by any of the three line endings are found again. *)
Lemma lines_of_concat (lines : list string) :
  lines <> [] ->
  Forall (fun line => has_line_terminator line = false) lines ->
  lines_of (String.concat CRLF lines) = lines
  /\ lines_of (String.concat LF lines) = lines
  /\ lines_of (String.concat CR lines) = lines.
Proof.
  intros Hne H. induction H as [|line rest Hline Hrest IH]; [contradiction|].
  destruct rest as [|next rest].
  - cbn [String.concat]. now rewrite (lines_of_no_break line Hline).
  - destruct IH as (IH1 & IH2 & IH3); [discriminate|].
    change (String.concat ?sep (line :: next :: rest))
      with (line ++ sep ++ String.concat sep (next :: rest)).
    rewrite lines_of_crlf, lines_of_lf, lines_of_cr, IH1, IH2, IH3;
      auto using concat_cr_no_lf.
Qed.

Lemma truthy_app (a : string) (c : ascii) (r : string) :
  truthy (a ++ String c r) = true.
Proof. now destruct a. Qed.

Lemma truthy_concat (sep : string) (lines : list string) :
  sep <> "" ->
  truthy (String.concat sep lines)
  = match lines with
    | [] => false
    | [line] => truthy line
    | _ => true
    end.
Proof.
  intros Hsep. destruct lines as [|line [|next rest]]; try reflexivity.
  cbn [String.concat]. destruct sep as [|c r]; [contradiction|].
  change (String c r ++ String.concat (String c r) (next :: rest))
    with (String c (r ++ String.concat (String c r) (next :: rest))).
  apply truthy_app.
Qed.

(** The parser sees a text through its truthiness and its lines. *)
Lemma parse_by_lines (raw1 raw2 : string) :
  truthy raw1 = truthy raw2 ->
  lines_of raw1 = lines_of raw2 ->
  parseRawRequest raw1 = parseRawRequest raw2.
Proof. intros Ht Hl. unfold parseRawRequest. now rewrite Ht, Hl. Qed.

(** X1: the three line endings are alike to the parser: lines without
    line terminator joined by CRLF, by LF or by CR give the same result. *)
Theorem line_endings_alike (lines : list string) :
  Forall (fun line => has_line_terminator line = false) lines ->
  parseRawRequest (String.concat CRLF lines) = parseRawRequest (String.concat LF lines)
  /\ parseRawRequest (String.concat CR lines) = parseRawRequest (String.concat LF lines).
Proof.
  intros H. destruct lines as [|line rest]; [now split|].
  destruct (lines_of_concat (line :: rest)) as (H1 & H2 & H3);
    [discriminate | assumption|].
  split; apply parse_by_lines;
    rewrite ?H1, ?H2, ?H3, ?truthy_concat; try reflexivity; discriminate.
Qed.

Lemma line_endings_alike_witness :
  parseRawRequest (String.concat CR ["GET /a HTTP/1.1"; "Host: h"; ""])
  = parseRawRequest (String.concat LF ["GET /a HTTP/1.1"; "Host: h"; ""]).
Proof.
  apply (line_endings_alike ["GET /a HTTP/1.1"; "Host: h"; ""]).
  repeat constructor.
Defined.

(** ** The request line *)

Lemma has_space_app (a b : string) :
  has_space (a ++ b) = has_space a || has_space b.
Proof.
  induction a as [|c r IH]; [reflexivity|].
  cbn [append has_space]. now rewrite IH, orb_assoc.
Qed.

Lemma has_line_terminator_app (a b : string) :
  has_line_terminator (a ++ b)
  = has_line_terminator a || has_line_terminator b.
Proof.
  induction a as [|c r IH]; [reflexivity|].
  cbn [append has_line_terminator]. now rewrite IH, orb_assoc.
Qed.

Lemma trimStart_not_space (c : ascii) (r : string) :
  is_space c = false -> trimStart (String c r) = String c r.
Proof. intros H. simpl. now rewrite H. Qed.

Lemma trimEnd_not_space (c : ascii) (r : string) :
  is_space c = false -> trimEnd (String c r) = String c (trimEnd r).
Proof. intros H. simpl. rewrite H. now destruct (trimEnd r). Qed.

Lemma trimEnd_after_token (a b : string) :
  has_space a = false -> trimEnd (a ++ b) = a ++ trimEnd b.
Proof.
  induction a as [|c r IH]; [reflexivity|]. cbn [has_space].
  intros H. apply orb_false_iff in H as [Hc Hr].
  change (String c r ++ b) with (String c (r ++ b)).
  rewrite (trimEnd_not_space c _ Hc), IH by assumption. reflexivity.
Qed.

Lemma trimEnd_spaced (t : string) :
  empty_or_spaced t = true -> empty_or_spaced (trimEnd t) = true.
Proof.
  destruct t as [|c r]; [reflexivity|]. cbn [empty_or_spaced]. intros Hc.
  simpl. rewrite Hc. destruct (trimEnd r); [reflexivity | exact Hc].
Qed.

(** A token, then white space or the end: the token is the first piece. *)
Lemma split_first_token (in_run : bool) (a u : string) :
  a <> "" -> has_space a = false -> empty_or_spaced u = true ->
  exists pieces, split_spaces_from in_run (a ++ u) = a :: pieces.
Proof.
  intros Hne Ha Hu.
  assert (Hfalse : forall b, has_space b = false ->
            exists pieces, split_spaces_from false (b ++ u) = b :: pieces).
  { induction b as [|c r IH]; intros Hb.
    - destruct u as [|sp x]; [now exists []|].
      cbn [empty_or_spaced] in Hu. cbn [append split_spaces_from].
      rewrite Hu. now eexists.
    - cbn [has_space] in Hb. apply orb_false_iff in Hb as [Hc Hr].
      destruct (IH Hr) as (pieces & E).
      cbn [append split_spaces_from]. rewrite Hc, E. now eexists. }
  destruct a as [|c r]; [contradiction|].
  cbn [has_space] in Ha. apply orb_false_iff in Ha as [Hc Hr].
  destruct (Hfalse r Hr) as (pieces & E).
  cbn [append split_spaces_from]. rewrite Hc, E. now eexists.
Qed.

Lemma split_two_tokens (m p t : string) :
  m <> "" -> p <> "" -> has_space m = false -> has_space p = false ->
  empty_or_spaced t = true ->
  exists pieces, split_spaces (m ++ " " ++ p ++ t) = m :: p :: pieces.
Proof.
  intros Hm Hp Hsm Hsp Ht. unfold split_spaces.
  destruct (split_first_token true p t Hp Hsp Ht) as (pieces & E).
  exists pieces.
  assert (Hfalse : forall b, has_space b = false ->
            split_spaces_from false (b ++ " " ++ p ++ t) = b :: p :: pieces).
  { induction b as [|c r IH]; intros Hb.
    - change ("" ++ " " ++ p ++ t) with (String " " (p ++ t)).
      cbn [split_spaces_from]. change (is_space " ") with true.
      cbn iota. now rewrite E.
    - cbn [has_space] in Hb. apply orb_false_iff in Hb as [Hc Hr].
      change (String c r ++ " " ++ p ++ t)
        with (String c (r ++ " " ++ p ++ t)).
      cbn [split_spaces_from]. now rewrite Hc, (IH Hr). }
  now apply Hfalse.
Qed.

Lemma request_line_trim (m p t : string) :
  m <> "" -> p <> "" -> has_space m = false -> has_space p = false ->
  trim (m ++ " " ++ p ++ t) = m ++ " " ++ p ++ trimEnd t.
Proof.
  intros Hm Hp Hsm Hsp. unfold trim.
  assert (Hstart : trimStart (m ++ " " ++ p ++ t) = m ++ " " ++ p ++ t).
  { destruct m as [|c r]; [contradiction|].
    cbn [has_space] in Hsm. apply orb_false_iff in Hsm as [Hc _].
    now apply trimStart_not_space. }
  rewrite Hstart, (trimEnd_after_token m _ Hsm).
  destruct p as [|c r]; [contradiction|].
  assert (Hp' : trimEnd (String c r ++ t) = String c r ++ trimEnd t)
    by now apply trimEnd_after_token.
  change (" " ++ String c r ++ t) with (String " " (String c r ++ t)).
  cbn [trimEnd]. rewrite Hp'. reflexivity.
Qed.

Lemma parse_request_line (m p t : string) (more : list string) (raw : string) :
  m <> "" -> p <> "" -> has_space m = false -> has_space p = false ->
  empty_or_spaced t = true ->
  truthy raw = true ->
  lines_of raw = (m ++ " " ++ p ++ t) :: more ->
  parseRawRequest raw
  = Some (mkParsedRequest m p (spec_host ((m ++ " " ++ p ++ t) :: more))).
Proof.
  intros Hm Hp Hsm Hsp Ht Hraw Hlines. unfold parseRawRequest.
  rewrite Hraw, Hlines, find_host_spec.
  cbn [negb List.length Nat.eqb find_request_line].
  rewrite (request_line_trim m p t Hm Hp Hsm Hsp).
  assert (Htruthy : truthy (m ++ " " ++ p ++ trimEnd t) = true)
    by (destruct m; [contradiction | reflexivity]).
  rewrite Htruthy. cbn [negb]. rewrite Htruthy. cbn [negb].
  destruct (split_two_tokens m p (trimEnd t) Hm Hp Hsm Hsp
              (trimEnd_spaced t Ht)) as (pieces & E).
  rewrite E. cbn [List.length Nat.ltb Nat.leb nth].
  assert (Htm : truthy m = true) by (destruct m; [contradiction | reflexivity]).
  assert (Htp : truthy p = true) by (destruct p; [contradiction | reflexivity]).
  now rewrite Htm, Htp.
Qed.

(** X2: a request line made of a method, a space, a path and then nothing
    or white space and anything else on the line is parsed into that
    method and that path, whatever follows the line; the host is the one
    of the first host line. *)
Theorem request_line_recovered (m p t rest : string) :
  m <> "" -> p <> "" -> has_space m = false -> has_space p = false ->
  empty_or_spaced t = true -> has_line_terminator t = false ->
  parseRawRequest (m ++ " " ++ p ++ t)
  = Some (mkParsedRequest m p (spec_host [m ++ " " ++ p ++ t]))
  /\ parseRawRequest ((m ++ " " ++ p ++ t) ++ CRLF ++ rest)
     = Some (mkParsedRequest m p
               (spec_host ((m ++ " " ++ p ++ t) :: lines_of rest))).
Proof.
  intros Hm Hp Hsm Hsp Ht Hbreak.
  assert (Hline : has_line_terminator (m ++ " " ++ p ++ t) = false).
  { rewrite !has_line_terminator_app, Hbreak,
      (has_space_line_terminator m Hsm), (has_space_line_terminator p Hsp).
    reflexivity. }
  assert (Htruthy : forall tail, truthy ((m ++ " " ++ p ++ t) ++ tail) = true)
    by (intros tail; destruct m; [contradiction | reflexivity]).
  split; apply parse_request_line; auto.
  - destruct m; [contradiction | reflexivity].
  - now apply lines_of_no_break.
  - now apply lines_of_crlf.
Qed.

Lemma request_line_recovered_witness :
  parseRawRequest (("DELETE" ++ " " ++ "/items/7" ++ "  HTTP/2") ++ CRLF
                   ++ "host: api.test")
  = Some (mkParsedRequest "DELETE" "/items/7"
            (spec_host (("DELETE" ++ " " ++ "/items/7" ++ "  HTTP/2")
                        :: lines_of "host: api.test"))).
Proof.
  apply (request_line_recovered "DELETE" "/items/7" "  HTTP/2" "host: api.test");
    (discriminate || reflexivity).
Defined.

(** ** Trimmed strings *)

Lemma trimEnd_idempotent (s : string) : trimEnd (trimEnd s) = trimEnd s.
Proof.
  induction s as [|c r IH]; [reflexivity|]. cbn [trimEnd].
  destruct (trimEnd r) as [|d r'] eqn:E.
  - destruct (is_space c) eqn:Hc; [reflexivity|]. simpl. now rewrite Hc.
  - change (trimEnd (String c (String d r')))
      with (match trimEnd (String d r') with
            | "" => if is_space c then "" else String c ""
            | String x y => String c (String x y)
            end).
    now rewrite IH.
Qed.

Lemma trimStart_shape (s : string) :
  trimStart s = ""
  \/ exists c r, trimStart s = String c r /\ is_space c = false.
Proof.
  induction s as [|c r IH]; [now left|]. simpl.
  destruct (is_space c) eqn:Hc; [exact IH|]. right. now exists c, r.
Qed.

Lemma trim_idempotent (s : string) : trim (trim s) = trim s.
Proof.
  unfold trim. destruct (trimStart_shape s) as [E|(c & r & E & Hc)].
  - now rewrite E.
  - rewrite E, (trimEnd_not_space c r Hc),
      (trimStart_not_space c _ Hc), <- (trimEnd_not_space c r Hc).
    apply trimEnd_idempotent.
Qed.

(** X3: in every parsed request the method and the path are not empty and
    hold no white space, hence no line break either, and the host has no
    white space at its ends. *)
Theorem parsed_fields_clean (raw : string) (r : ParsedRequest) :
  parseRawRequest raw = Some r ->
  method r <> "" /\ path r <> ""
  /\ has_space (method r) = false /\ has_space (path r) = false
  /\ has_line_terminator (method r) = false
  /\ has_line_terminator (path r) = false
  /\ trim (host r) = host r.
Proof.
  intros Hparse.
  destruct (parse_some _ _ Hparse) as (_ & _ & Hhost & Hm & Hp).
  destruct (parsed_path_no_space _ _ Hparse) as [Hsm Hsp].
  repeat split; auto using has_space_line_terminator.
  rewrite Hhost. clear. induction (lines_of raw) as [|line rest IH];
    [reflexivity|].
  cbn [find_host]. destruct (startsWith _ _); [apply trim_idempotent | exact IH].
Qed.

Lemma parsed_fields_clean_witness :
  trim (host (mkParsedRequest "GET" "/x" "example.com")) = "example.com".
Proof.
  exact (proj2 (proj2 (proj2 (proj2 (proj2 (proj2
    (parsed_fields_clean headers_text
       (mkParsedRequest "GET" "/x" "example.com") eq_refl))))))).
Defined.

(** ** The default name *)

Lemma startsWith_app (a b : string) : startsWith (a ++ b) a = true.
Proof.
  unfold startsWith. induction a as [|c r IH]; [apply prefix_empty|].
  cbn [append]. now rewrite prefix_String, Ascii.eqb_refl.
Qed.

(** X4: the default name begins with the method and a space, and it has at
    most 30 characters when the method has at most 26, and the length of
    the method and 4 otherwise. *)
Theorem default_name_bounded (method path : string) :
  startsWith (defaultTabName method path) (method ++ " ") = true
  /\ String.length (defaultTabName method path)
     <= Nat.max 30 (String.length method + 4)
  /\ (String.length method <= 26 ->
      String.length (defaultTabName method path) <= 30).
Proof.
  assert (Hcases :
    (String.length method + 1 + String.length (cleanPath path) <= 30
     /\ defaultTabName method path = method ++ " " ++ cleanPath path)
    \/ (30 < String.length method + 1 + String.length (cleanPath path)
        /\ defaultTabName method path
           = method ++ " "
             ++ substring 0 (30 - String.length method - 4) (cleanPath path)
             ++ "...")).
  { destruct (Nat.le_gt_cases
                (String.length method + 1 + String.length (cleanPath path)) 30)
      as [Hle|Hgt].
    - left. split; [exact Hle|]. unfold defaultTabName, maxLength.
      replace (String.length (method ++ " " ++ cleanPath path))
        with (String.length method + 1 + String.length (cleanPath path))
        by (rewrite !length_app; cbn [String.length]; lia).
      destruct (Z.ltb_spec 30
                  (Z.of_nat (String.length method + 1
                             + String.length (cleanPath path))));
        [lia | reflexivity].
    - right. split; [exact Hgt | now apply defaultTabName_truncated]. }
  assert (Hlen :
    String.length (defaultTabName method path)
    <= Nat.max 30 (String.length method + 4)
    /\ (String.length method <= 26 ->
        String.length (defaultTabName method path) <= 30)).
  { destruct Hcases as [[Hle E]|[Hgt E]]; rewrite E, !length_app,
      ?length_substring_0; cbn [String.length]; lia. }
  split; [|exact Hlen].
  destruct Hcases as [[_ E]|[_ E]]; rewrite E, <- app_assoc_string;
    apply startsWith_app.
Qed.

Lemma name_char_not_query (c : ascii) :
  is_name_char c = true -> is_query_mark c = false.
Proof. each_char c. Qed.

Lemma replace_non_name_chars (s : string) :
  all_name_chars (replace_non_name s) = true.
Proof.
  induction s as [|c r IH]; [reflexivity|]. simpl.
  destruct (is_name_char c) eqn:Hc; [simpl; now rewrite Hc | exact IH].
Qed.

Lemma cleanPath_of_name_chars (s : string) :
  all_name_chars s = true -> cleanPath s = s.
Proof.
  unfold cleanPath. induction s as [|c r IH]; [reflexivity|].
  cbn [all_name_chars]. intros H. apply andb_true_iff in H as [Hc Hr].
  cbn [replace_query]. rewrite (name_char_not_query c Hc). cbn [andb].
  cbn [replace_non_name]. now rewrite Hc, IH.
Qed.

(** X5: the cleaned path is made of letters, digits, [/], [-], [_] and [.]
    only; cleaning it again changes nothing, and the default name of a
    path is the default name of its cleaned path. *)
Theorem cleanPath_idempotent (method path : string) :
  all_name_chars (cleanPath path) = true
  /\ cleanPath (cleanPath path) = cleanPath path
  /\ defaultTabName method (cleanPath path) = defaultTabName method path.
Proof.
  assert (H : all_name_chars (cleanPath path) = true)
    by apply replace_non_name_chars.
  pose proof (cleanPath_of_name_chars _ H) as E.
  repeat split; [exact H | exact E|].
  unfold defaultTabName. now rewrite E.
Qed.

(** ** The custom naming function *)

(** X6: when the custom source is not blank and the user function returns
    a string that is not blank, the generator returns that string trimmed,
    so without white space at its ends; it logs nothing, and the only call
    it makes is the evaluation of the user function, with the method, the
    path and the host it was given. *)
Theorem custom_result_used (env : Environment) (method path : string)
        (host : option string) (st : State) (s : string) :
  truthy (trim (namingFunction st)) = true ->
  userFunction env (history st) (namingFunction st) method path
               (host_or_empty host) = Normal (VString s) ->
  truthy (trim s) = true ->
  let st' := snd (generateTabName env method path host st) in
  fst (generateTabName env method path host st) = Normal (trim s)
  /\ trim (trim s) = trim s
  /\ activityLogs st' = activityLogs st
  /\ history st'
     = RunUserFunction (namingFunction st) method path (host_or_empty host)
       :: history st.
Proof.
  intros Hsource Hresult Hs. cbv zeta.
  rewrite generateTabName_eq, Hsource. cbv zeta. rewrite Hresult, Hs.
  repeat split. apply trim_idempotent.
Qed.

Lemma custom_result_used_witness :
  fst (generateTabName env_echo "GET" "/a" (Some "h.test") state_echo)
  = Normal (trim "[h.test] /a").
Proof.
  exact (proj1 (custom_result_used env_echo "GET" "/a" (Some "h.test")
                  state_echo "[h.test] /a" eq_refl eq_refl eq_refl)).
Defined.

(** X7: the generator falls back to the default name without a word in
    the log when there is nothing to use: a custom source that is blank
    is not evaluated at all and the state is left as it is; a result that
    is not a string, or a blank string, gives the default name. *)
Theorem silent_fallback (env : Environment) (method path : string)
        (host : option string) (st : State) :
  (truthy (trim (namingFunction st)) = false ->
   generateTabName env method path host st
   = (Normal (defaultTabName method path), st))
  /\ (forall result,
        truthy (trim (namingFunction st)) = true ->
        userFunction env (history st) (namingFunction st) method path
                     (host_or_empty host) = Normal result ->
        match result with
        | VString s => truthy (trim s) = false
        | VOther => True
        end ->
        fst (generateTabName env method path host st)
        = Normal (defaultTabName method path)
        /\ activityLogs (snd (generateTabName env method path host st))
           = activityLogs st).
Proof.
  split.
  - intros Hblank. now rewrite generateTabName_eq, Hblank.
  - intros result Hsource Hresult Hnothing.
    rewrite generateTabName_eq, Hsource. cbv zeta. rewrite Hresult.
    destruct result as [s|]; [rewrite Hnothing|]; now split.
Qed.

Lemma silent_fallback_witness :
  generateTabName env_throwing "GET" "/a" None
    (mkState true [] "   " 0 0 0 StoredOther [])
  = (Normal "GET /a", mkState true [] "   " 0 0 0 StoredOther []).
Proof.
  exact (proj1 (silent_fallback env_throwing "GET" "/a" None
                  (mkState true [] "   " 0 0 0 StoredOther [])) eq_refl).
Defined.

(** ** The lookup of the details *)

(** X8: the lookup of the details never throws; it sends at most one
    request, and none at all, giving no entry, when there is no SDK
    instance or no access token. *)
Theorem details_lookup_calls (env : Environment) (sessionId : string)
        (st : State) :
  let st' := snd (getSessionDetails env sessionId st) in
  (exists entry, fst (getSessionDetails env sessionId st) = Normal entry)
  /\ (history st' = history st
      \/ history st' = PostGraphql sessionId :: history st)
  /\ (sdkInstance env = false \/ has_token env (history st) = false ->
      getSessionDetails env sessionId st = (Normal None, st)).
Proof.
  cbv zeta. rewrite getSessionDetails_eq.
  destruct (sdkInstance env); destruct (has_token env (history st));
    cbn [andb fst snd]; repeat split; eauto;
    intros [H|H]; discriminate.
Qed.

Lemma details_lookup_calls_witness :
  getSessionDetails
    (mkEnvironment true (fun _ => Normal None) (fun _ => None)
       (fun _ _ => Throw ThrownNullish) (fun _ _ _ => Normal tt)
       (fun _ => no_user_code) (fun _ => None) (fun _ _ => None))
    "a" freshState
  = (Normal None, freshState).
Proof.
  apply (proj2 (proj2 (details_lookup_calls
    (mkEnvironment true (fun _ => Normal None) (fun _ => None)
       (fun _ _ => Throw ThrownNullish) (fun _ _ _ => Normal tt)
       (fun _ => no_user_code) (fun _ => None) (fun _ _ => None))
    "a" freshState))).
  right. reflexivity.
Defined.

(** ** The storage *)

Section Storage.

Variable env : Environment.

Lemma getStorage_eq (st : State) :
  getStorage env st
  = if sdkInstance env then
      (Normal (match storageGetError env (history st) with
               | Some _ => defaultStorage
               | None => readStorage st
               end),
       record_call StorageGet st)
    else (Normal defaultStorage, st).
Proof.
  unfold getStorage, try_catch, bind, storage_get, ret, readStorage,
    persistedKnown, persistedFunction, persistedInterval.
  destruct (sdkInstance env); cbn [negb]; [|reflexivity].
  destruct (storageGetError env (history st)); [reflexivity|].
  destruct (storage st) as [|[known|] [source|] [interval|]]; reflexivity.
Qed.

Lemma saveStorage_eq (value : PluginStorage) (st : State) :
  saveStorage env value st
  = (Normal tt,
     if sdkInstance env then
       match storageSetError env (history st) value with
       | Some _ => record_call (StorageSet value) st
       | None =>
           set_storage
             (StoredObject (Some (knownSessions value))
                           (Some (customNamingFunction value))
                           (Some (pollingInterval value)))
             (record_call (StorageSet value) st)
       end
     else st).
Proof.
  unfold saveStorage, try_catch, storage_set, ret.
  destruct (sdkInstance env); cbn [negb]; [|reflexivity].
  now destruct (storageSetError env (history st) value).
Qed.

End Storage.

Ltac storage_run Hsdk Hread Hwrite :=
  repeat progress
    (rewrite ?getStorage_eq, ?saveStorage_eq, ?addLog_eq, ?Hsdk, ?Hread,
       ?Hwrite;
     cbn [fst snd history record_call set_storage set_activityLogs]).

Lemma filter_all {A} (f : A -> bool) (l : list A) :
  (forall x, In x l -> f x = true) -> filter f l = l.
Proof.
  induction l as [|x l IH]; [reflexivity|]. intros H. simpl.
  rewrite (H x (or_introl eq_refl)), IH; [reflexivity|].
  intros y Hy. apply H. now right.
Qed.

Lemma new_Set_NoDup (l : list string) : NoDup (new_Set l).
Proof.
  induction l as [|x l IH]; [constructor|]. cbn [new_Set]. constructor.
  - rewrite filter_In. intros [_ H]. now rewrite String.eqb_refl in H.
  - now apply NoDup_filter.
Qed.

Lemma new_Set_of_NoDup (l : list string) : NoDup l -> new_Set l = l.
Proof.
  induction 1 as [|x l Hx _ IH]; [reflexivity|]. cbn [new_Set].
  rewrite IH, filter_all; [reflexivity|].
  intros y Hy. destruct (String.eqb_spec x y) as [->|]; [contradiction|].
  reflexivity.
Qed.

(** X9: what was saved as known sessions is what is read back: with an SDK
    instance and a storage that works, [getKnownSessions] after
    [saveKnownSessions] gives the saved ids as a set, that is without
    duplicates and unchanged when there were none; the naming function and
    the polling interval in the storage are as before. *)
Theorem known_sessions_round_trip (env : Environment) (sessions : list string)
        (st : State) :
  sdkInstance env = true -> reads_work env -> writes_work env ->
  let st' := snd (saveKnownSessions env sessions st) in
  fst (getKnownSessions env st') = Normal (new_Set sessions)
  /\ NoDup (new_Set sessions)
  /\ (NoDup sessions -> fst (getKnownSessions env st') = Normal sessions)
  /\ persistedFunction st' = persistedFunction st
  /\ persistedInterval st' = persistedInterval st.
Proof.
  intros Hsdk Hread Hwrite. cbv zeta.
  unfold saveKnownSessions, getKnownSessions, bind.
  storage_run Hsdk Hread Hwrite. cbn.
  repeat split; [apply new_Set_NoDup|].
  intros Hnodup. now rewrite new_Set_of_NoDup.
Qed.

Lemma known_sessions_round_trip_witness :
  fst (getKnownSessions env_scenario
         (snd (saveKnownSessions env_scenario ["b"; "a"; "b"] state_knowing_a)))
  = Normal ["b"; "a"].
Proof.
  exact (proj1 (known_sessions_round_trip env_scenario ["b"; "a"; "b"]
                  state_knowing_a eq_refl (fun _ => eq_refl)
                  (fun _ _ => eq_refl))).
Defined.

(** X10: saving the known sessions reads the storage first and writes all
    three keys back; when that reading fails and the writing works, the
    naming function and the polling interval in the storage are replaced
    by the defaults, the empty source and 3000. *)
Theorem failed_read_resets_settings (env : Environment)
        (sessions : list string) (st : State) (error : Thrown) :
  sdkInstance env = true ->
  storageGetError env (history st) = Some error ->
  writes_work env ->
  let st' := snd (saveKnownSessions env sessions st) in
  fst (saveKnownSessions env sessions st) = Normal tt
  /\ persistedKnown st' = sessions
  /\ persistedFunction st' = ""
  /\ persistedInterval st' = 3000%Z.
Proof.
  intros Hsdk Hread Hwrite. cbv zeta. unfold saveKnownSessions, bind.
  storage_run Hsdk Hread Hwrite. repeat split.
Qed.

(** X11: a naming function or a polling interval that was saved is read
    back, with an SDK instance and a storage that works, and saving one
    of them leaves the known sessions and the other one in the storage as
    they were. *)
Theorem settings_round_trip (env : Environment) (st : State) :
  sdkInstance env = true -> reads_work env -> writes_work env ->
  (forall functionCode,
     let st' := snd (saveCustomNamingFunction env functionCode st) in
     fst (getCustomNamingFunction env st') = Normal functionCode
     /\ persistedKnown st' = persistedKnown st
     /\ persistedInterval st' = persistedInterval st)
  /\ (forall interval,
        let st' := snd (savePollingInterval env interval st) in
        fst (getPollingInterval env st') = Normal interval
        /\ persistedKnown st' = persistedKnown st
        /\ persistedFunction st' = persistedFunction st).
Proof.
  intros Hsdk Hread Hwrite. split; intros value; cbv zeta;
    unfold saveCustomNamingFunction, getCustomNamingFunction,
      savePollingInterval, getPollingInterval, bind;
    storage_run Hsdk Hread Hwrite; repeat split.
Qed.

Lemma settings_round_trip_witness :
  fst (getCustomNamingFunction env_scenario
         (snd (saveCustomNamingFunction env_scenario "return method"
                 state_knowing_a)))
  = Normal "return method".
Proof.
  exact (proj1 (proj1 (settings_round_trip env_scenario state_knowing_a
                         eq_refl (fun _ => eq_refl) (fun _ _ => eq_refl))
                      "return method")).
Defined.

Lemma failed_read_resets_settings_witness :
  persistedFunction
    (snd (saveKnownSessions
            (mkEnvironment true (fun _ => Normal None) (fun _ => None)
               (fun _ _ => Throw ThrownNullish) (fun _ _ _ => Normal tt)
               (fun _ => no_user_code)
               (fun _ => Some (ThrownError "unavailable")) (fun _ _ => None))
            ["a"]
            (mkState true [] "" 0 0 0
               (StoredObject (Some []) (Some "return path") (Some 5000%Z)) [])))
  = "".
Proof.
  exact (proj1 (proj2 (proj2 (failed_read_resets_settings
    (mkEnvironment true (fun _ => Normal None) (fun _ => None)
       (fun _ _ => Throw ThrownNullish) (fun _ _ _ => Normal tt)
       (fun _ => no_user_code)
       (fun _ => Some (ThrownError "unavailable")) (fun _ _ => None))
    ["a"]
    (mkState true [] "" 0 0 0
       (StoredObject (Some []) (Some "return path") (Some 5000%Z)) [])
    (ThrownError "unavailable") eq_refl eq_refl (fun _ _ => eq_refl))))).
Defined.

(** X12: the reset button, with an SDK instance and a storage that works,
    empties the known set, keeps the naming function and the polling
    interval in the storage, sets the three counters to zero and, with
    logs enabled, puts its notice on top of the log. *)
Theorem reset_button (env : Environment) (st : State) :
  sdkInstance env = true -> reads_work env -> writes_work env ->
  let st' := snd (onResetClick env st) in
  fst (onResetClick env st) = Normal tt
  /\ persistedKnown st' = []
  /\ fst (getKnownSessions env st') = Normal []
  /\ persistedFunction st' = persistedFunction st
  /\ persistedInterval st' = persistedInterval st
  /\ sessionsCount st' = 0 /\ knownCount st' = 0 /\ newCount st' = 0
  /\ (logsEnabled st = true ->
      hd_error (activityLogs st') = Some LogStorageCleared).
Proof.
  intros Hsdk Hread Hwrite. cbv zeta.
  unfold onResetClick, clearKnownSessions, getKnownSessions, bind.
  storage_run Hsdk Hread Hwrite. unfold updateCounts.
  storage_run Hsdk Hread Hwrite. cbn.
  repeat split. intros Hlogs. unfold logged. cbn. now rewrite Hlogs.
Qed.

Lemma reset_button_witness :
  persistedKnown (snd (onResetClick env_scenario state_knowing_a)) = [].
Proof.
  exact (proj1 (proj2 (reset_button env_scenario state_knowing_a eq_refl
                         (fun _ => eq_refl) (fun _ _ => eq_refl)))).
Defined.

(** ** Relations that every step keeps *)

Section Steps.

Variable env : Environment.
Variable R : State -> State -> Prop.
Hypothesis R_refl : forall st, R st st.
Hypothesis R_trans : forall a b c, R a b -> R b c -> R a c.
Hypothesis R_log :
  forall message st, R st (set_activityLogs (logged message st) st).
Hypothesis R_call : forall c st, R st (record_call c st).

Lemma steps_ret {A} (a : A) : steps R (ret a).
Proof. intros st. apply R_refl. Qed.

Lemma steps_throw {A} (e : Thrown) : steps R (@throw Thrown A e).
Proof. intros st. apply R_refl. Qed.

Lemma steps_bind {A B} (m : M A) (k : A -> M B) :
  steps R m -> (forall a, steps R (k a)) -> steps R (bind m k).
Proof.
  intros Hm Hk st. unfold bind. specialize (Hm st).
  destruct (m st) as [[a|e] st1]; [|exact Hm].
  exact (R_trans _ _ _ Hm (Hk a st1)).
Qed.

Lemma steps_try {A} (m : M A) (handler : Thrown -> M A) :
  steps R m -> (forall e, steps R (handler e)) -> steps R (try_catch m handler).
Proof.
  intros Hm Hh st. unfold try_catch. specialize (Hm st).
  destruct (m st) as [[a|e] st1]; [exact Hm|].
  exact (R_trans _ _ _ Hm (Hh e st1)).
Qed.

Lemma steps_addLog (message : LogMessage) : steps R (addLog message).
Proof. intros st. rewrite addLog_eq. apply R_log. Qed.

Lemma steps_call {A} (c : Call) (answer : list Call -> Completion A) :
  steps R (call c answer).
Proof. intros st. apply R_call. Qed.

Lemma steps_log_ret {A} (message : LogMessage) (a : A) :
  steps R (addLog message ;; ret a).
Proof. apply steps_bind; [apply steps_addLog | intros _; apply steps_ret]. Qed.

Lemma steps_generateTabName (method path : string) (host : option string) :
  steps R (generateTabName env method path host).
Proof.
  intros st. rewrite generateTabName_eq.
  destruct (truthy (trim (namingFunction st))); [|apply R_refl]. cbv zeta.
  destruct (userFunction env (history st) (namingFunction st) method path
                         (host_or_empty host)) as [[s|]|error];
    cbn [snd]; try apply R_call.
  - destruct (truthy (trim s)); apply R_call.
  - destruct (errorMessage error) as [message|typeError];
      cbn [snd]; [|apply R_call].
    eapply R_trans; [apply R_call|].
    eapply R_trans; apply R_log.
Qed.

Lemma steps_getSessionDetails (sessionId : string) :
  steps R (getSessionDetails env sessionId).
Proof.
  intros st. rewrite getSessionDetails_eq.
  destruct (_ && _); [apply R_call | apply R_refl].
Qed.

Lemma steps_afterDetails (session : Session) (renamedCount : nat)
      (entry : option Entry) :
  steps R (afterDetails env session renamedCount entry).
Proof.
  unfold afterDetails. destruct entry as [entry|]; [|apply steps_log_ret].
  assert (Hparsed : forall decoded,
    steps R
      match parseRawRequest decoded with
      | Some requestInfo =>
          newName <- generateTabName env (method requestInfo)
                                     (path requestInfo) None ;;
          if String.eqb (currentNameOf entry session) newName then
            addLog (LogAlreadyCorrect (id session)) ;; ret renamedCount
          else
            call (RenameSession (id session) newName)
                 (fun h => renameSession env h (id session) newName) ;;
            addLog (LogRenamed (id session) newName) ;;
            addLog (LogRequest (method requestInfo) (host requestInfo)
                               (path requestInfo)) ;;
            ret (S renamedCount)
      | None => addLog (LogCannotParse (id session)) ;; ret renamedCount
      end).
  { intros decoded. destruct (parseRawRequest decoded) as [requestInfo|];
      [|apply steps_log_ret].
    apply steps_bind; [apply steps_generateTabName|].
    intros newName. destruct (String.eqb _ _); [apply steps_log_ret|].
    apply steps_bind; [apply steps_call|]. intros _.
    apply steps_bind; [apply steps_addLog | intros _; apply steps_log_ret]. }
  destruct (raw entry).
  - apply steps_log_ret.
  - apply steps_bind; [apply steps_throw | exact Hparsed].
  - apply steps_bind; [apply steps_ret | exact Hparsed].
Qed.

Lemma processSession_afterDetails (session : Session) (renamedCount : nat) :
  processSession env session renamedCount
  = (addLog (LogProcessing (id session)) ;;
     entry <- getSessionDetails env (id session) ;;
     afterDetails env session renamedCount entry).
Proof. reflexivity. Qed.

Lemma steps_trySession (session : Session) (renamedCount : nat) :
  steps R (trySession env session renamedCount).
Proof.
  apply steps_try; [|intros e; apply steps_log_ret].
  rewrite processSession_afterDetails.
  apply steps_bind; [apply steps_addLog|]. intros _.
  apply steps_bind; [apply steps_getSessionDetails|].
  apply steps_afterDetails.
Qed.

Lemma steps_forEachSession (newSessions : list Session) (renamedCount : nat) :
  steps R (forEachSession env newSessions renamedCount).
Proof.
  revert renamedCount.
  induction newSessions as [|session rest IH]; intros renamedCount.
  - apply steps_ret.
  - apply steps_bind; [apply steps_trySession | exact IH].
Qed.

Hypothesis R_counts : forall a b c st, R st (set_counts a b c st).
Hypothesis R_storage : forall v st, R st (set_storage v st).

Lemma steps_getStorage : steps R (getStorage env).
Proof.
  intros st. rewrite getStorage_eq.
  destruct (sdkInstance env); [apply R_call | apply R_refl].
Qed.

Lemma steps_saveStorage (value : PluginStorage) :
  steps R (saveStorage env value).
Proof.
  intros st. rewrite saveStorage_eq. cbn [snd].
  destruct (sdkInstance env); [|apply R_refl].
  destruct (storageSetError env (history st) value); [apply R_call|].
  eapply R_trans; [apply R_call | apply R_storage].
Qed.

Lemma steps_getKnownSessions : steps R (getKnownSessions env).
Proof.
  apply steps_bind; [apply steps_getStorage | intros a; apply steps_ret].
Qed.

Lemma steps_saveKnownSessions (sessions : list string) :
  steps R (saveKnownSessions env sessions).
Proof.
  apply steps_bind; [apply steps_getStorage|].
  intros a. apply steps_saveStorage.
Qed.

Lemma steps_updateCounts (a b c : nat) : steps R (updateCounts a b c).
Proof. intros st. apply R_counts. Qed.

Lemma steps_cycle : steps R (checkAndRenameReplayTabs env).
Proof.
  apply steps_try; [|intros e; apply steps_addLog].
  unfold cycleBody. destruct (sdkInstance env); cbn [negb];
    [|apply steps_addLog].
  apply steps_bind; [apply steps_addLog|]. intros _.
  apply steps_bind; [apply steps_call|].
  assert (Hnone : steps R (addLog LogNoSessions ;; updateCounts 0 0 0))
    by (apply steps_bind; [apply steps_addLog
                          | intros _; apply steps_updateCounts]).
  intros [[|session sessions]|]; try exact Hnone.
  apply steps_bind; [apply steps_getKnownSessions|]. intros knownSessions.
  cbv zeta.
  apply steps_bind; [apply steps_addLog|]. intros _.
  apply steps_bind; [apply steps_updateCounts|]. intros _.
  destruct (Nat.eqb _ 0).
  - apply steps_bind; [apply steps_addLog|]. intros _.
    apply steps_saveKnownSessions.
  - apply steps_bind; [apply steps_forEachSession|]. intros renamedCount.
    apply steps_bind; [apply steps_saveKnownSessions|]. intros _.
    apply steps_bind; [apply steps_addLog|]. intros _.
    apply steps_bind;
      [destruct (Nat.ltb 0 renamedCount);
       [apply steps_addLog | apply steps_ret]|].
    intros _. apply steps_bind; [apply steps_getKnownSessions|].
    intros finalKnown. apply steps_updateCounts.
Qed.

End Steps.

Lemma logged_length (message : LogMessage) (st : State) :
  List.length (activityLogs st) <= 50 ->
  List.length (logged message st) <= 50.
Proof.
  intros H. unfold logged. destruct (logsEnabled st); [|exact H].
  rewrite length_firstn. apply Nat.le_min_l.
Qed.

(** X13: the log never grows beyond its 50 entries: a cycle that starts
    with at most 50 entries in the log ends with at most 50, whatever the
    collaborators answer. *)
Theorem cycle_keeps_log_bounded (env : Environment) (st : State) :
  List.length (activityLogs st) <= 50 ->
  List.length (activityLogs (snd (checkAndRenameReplayTabs env st))) <= 50.
Proof.
  apply (steps_cycle env log_bounded); unfold log_bounded; auto.
  intros message st0. cbn [activityLogs set_activityLogs].
  apply logged_length.
Qed.

Lemma cycle_keeps_log_bounded_witness :
  List.length (activityLogs (snd (checkAndRenameReplayTabs env_scenario
                                    freshState))) <= 50.
Proof.
  apply (cycle_keeps_log_bounded env_scenario freshState). simpl. lia.
Defined.

(** X14: a cycle changes neither the switch of the logs nor the naming
    function of the component, and with the logs switched off it leaves
    the log as it is. *)
Theorem cycle_keeps_switches (env : Environment) (st : State) :
  let st' := snd (checkAndRenameReplayTabs env st) in
  logsEnabled st' = logsEnabled st
  /\ namingFunction st' = namingFunction st
  /\ (logsEnabled st = false -> activityLogs st' = activityLogs st).
Proof.
  apply (steps_cycle env same_switches); unfold same_switches.
  - now intros st0.
  - intros a b c (E1 & N1 & L1) (E2 & N2 & L2).
    repeat split; [congruence | congruence|].
    intros Ha. rewrite L2, L1; congruence.
  - intros message st0. unfold logged.
    cbn [logsEnabled namingFunction activityLogs set_activityLogs].
    repeat split. now intros ->.
  - now intros c st0.
  - now intros a b c st0.
  - now intros v st0.
Qed.

(** ** The calls of a cycle *)

Lemma grows_bind_value P {A B} (Q : A -> Prop) (m : M A) (k : A -> M B) :
  (forall st a st', m st = (Normal a, st') -> Q a) ->
  grows P m -> (forall a, Q a -> grows P (k a)) -> grows P (bind m k).
Proof.
  intros HQ Hm Hk st. unfold bind. destruct (Hm st) as (c1 & E1 & F1).
  destruct (m st) as [[a|e] st1] eqn:E; [|now exists c1].
  destruct (Hk a (HQ st a st1 E) st1) as (c2 & E2 & F2).
  exists (c2 ++ c1)%list. cbn [snd] in E1. rewrite E2, E1, app_assoc.
  split; [reflexivity | now apply Forall_app].
Qed.

Lemma grows_log_ret P {A} (message : LogMessage) (a : A) :
  grows P (addLog message ;; ret a).
Proof. apply grows_bind; [apply grows_addLog | intros _; apply grows_ret]. Qed.

Section SessionCalls.

Variable env : Environment.
Variable P : Call -> Prop.
Hypothesis P_evaluation :
  forall source method path, P (RunUserFunction source method path "").

Lemma afterDetails_grows (session : Session) (renamedCount : nat)
      (entry : option Entry) :
  (forall newName, newName <> "" -> P (RenameSession (id session) newName)) ->
  grows P (afterDetails env session renamedCount entry).
Proof.
  intros P_rename. unfold afterDetails.
  destruct entry as [entry|]; [|apply grows_log_ret].
  assert (Hparsed : forall decoded,
    grows P
      match parseRawRequest decoded with
      | Some requestInfo =>
          newName <- generateTabName env (method requestInfo)
                                     (path requestInfo) None ;;
          if String.eqb (currentNameOf entry session) newName then
            addLog (LogAlreadyCorrect (id session)) ;; ret renamedCount
          else
            call (RenameSession (id session) newName)
                 (fun h => renameSession env h (id session) newName) ;;
            addLog (LogRenamed (id session) newName) ;;
            addLog (LogRequest (method requestInfo) (host requestInfo)
                               (path requestInfo)) ;;
            ret (S renamedCount)
      | None => addLog (LogCannotParse (id session)) ;; ret renamedCount
      end).
  { intros decoded. destruct (parseRawRequest decoded) as [requestInfo|];
      [|apply grows_log_ret].
    apply (grows_bind_value P (fun newName => newName <> "")).
    - intros st a st' E.
      exact (generateTabName_not_empty env _ _ _ _ _ _ E).
    - apply generateTabName_grows. intros source. apply P_evaluation.
    - intros newName Hname. destruct (String.eqb _ _); [apply grows_log_ret|].
      apply grows_bind; [apply grows_call; now apply P_rename|]. intros _.
      apply grows_bind; [apply grows_addLog | intros _; apply grows_log_ret]. }
  destruct (raw entry).
  - apply grows_log_ret.
  - apply grows_bind; [apply grows_throw | exact Hparsed].
  - apply grows_bind; [apply grows_ret | exact Hparsed].
Qed.

Lemma trySession_grows (session : Session) (renamedCount : nat) :
  allowed_calls P session -> grows P (trySession env session renamedCount).
Proof.
  intros [P_fetch P_rename].
  apply grows_try; [|intros e; apply grows_log_ret].
  rewrite processSession_afterDetails.
  apply grows_bind; [apply grows_addLog|]. intros _.
  apply grows_bind; [now apply getSessionDetails_grows|].
  intros entry. now apply afterDetails_grows.
Qed.

Lemma forEachSession_grows (newSessions : list Session) (renamedCount : nat) :
  Forall (allowed_calls P) newSessions ->
  grows P (forEachSession env newSessions renamedCount).
Proof.
  intros H. revert renamedCount.
  induction H as [|session rest Hs _ IH]; intros renamedCount.
  - apply grows_ret.
  - apply grows_bind; [now apply trySession_grows | exact IH].
Qed.

Hypothesis P_listing : P GetSessions.
Hypothesis P_read : P StorageGet.
Hypothesis P_write : forall value, P (StorageSet value).

Lemma restOfCycle_grows (st : State) (sessions : list Session) :
  Forall (allowed_calls P) (newSessionsOf (loadedKnown env st) sessions) ->
  grows P (restOfCycle env st sessions).
Proof.
  intros Hnew. unfold restOfCycle. cbv zeta. destruct (Nat.eqb _ 0).
  - apply grows_bind; [apply grows_addLog|]. intros _.
    now apply saveKnownSessions_grows.
  - apply grows_bind; [now apply forEachSession_grows|]. intros renamedCount.
    apply grows_bind; [now apply saveKnownSessions_grows|]. intros _.
    apply grows_bind; [apply grows_addLog|]. intros _.
    apply grows_bind;
      [destruct (Nat.ltb 0 renamedCount);
       [apply grows_addLog | apply grows_ret]|].
    intros _. apply grows_bind; [now apply getKnownSessions_grows|].
    intros finalKnown. apply grows_updateCounts.
Qed.

Hypothesis P_sessions : forall session, allowed_calls P session.

Lemma cycle_grows : grows P (checkAndRenameReplayTabs env).
Proof.
  apply grows_try; [|intros e; apply grows_addLog].
  unfold cycleBody. destruct (sdkInstance env); cbn [negb];
    [|apply grows_addLog].
  apply grows_bind; [apply grows_addLog|]. intros _.
  apply grows_bind; [now apply grows_call|].
  assert (Hnone : grows P (addLog LogNoSessions ;; updateCounts 0 0 0))
    by (apply grows_bind; [apply grows_addLog
                          | intros _; apply grows_updateCounts]).
  intros [[|session sessions]|]; try exact Hnone.
  apply grows_bind; [now apply getKnownSessions_grows|]. intros knownSessions.
  cbv zeta.
  apply grows_bind; [apply grows_addLog|]. intros _.
  apply grows_bind; [apply grows_updateCounts|]. intros _.
  destruct (Nat.eqb _ 0).
  - apply grows_bind; [apply grows_addLog|]. intros _.
    now apply saveKnownSessions_grows.
  - apply grows_bind;
      [apply forEachSession_grows, Forall_forall; intros s _; apply P_sessions|].
    intros renamedCount.
    apply grows_bind; [now apply saveKnownSessions_grows|]. intros _.
    apply grows_bind; [apply grows_addLog|]. intros _.
    apply grows_bind;
      [destruct (Nat.ltb 0 renamedCount);
       [apply grows_addLog | apply grows_ret]|].
    intros _. apply grows_bind; [now apply getKnownSessions_grows|].
    intros finalKnown. apply grows_updateCounts.
Qed.

End SessionCalls.

(** X15: a cycle never renames a session to the empty name: every call of
    the rename API that a cycle adds to the history carries a name that
    is not empty. *)
Theorem renames_are_named (env : Environment) (st : State) :
  exists calls,
    history (snd (checkAndRenameReplayTabs env st))
    = (calls ++ history st)%list
    /\ Forall names_not_empty calls
    /\ forall sessionId newName,
         In (RenameSession sessionId newName) calls -> newName <> "".
Proof.
  destruct (cycle_grows env names_not_empty) with (st := st)
    as (calls & E & F); try (intros; exact I).
  - intros session. split; [exact I | now intros newName Hn].
  - exists calls. split; [exact E|]. split; [exact F|].
    intros sessionId newName Hin.
    rewrite Forall_forall in F. exact (F _ Hin).
Qed.

(** ** The cycle, step by step *)

Lemma has_In (l : list string) (x : string) : has l x = true <-> In x l.
Proof.
  unfold has. rewrite existsb_exists. split.
  - intros (y & Hy & E). apply String.eqb_eq in E. now subst.
  - intros H. exists x. split; [exact H | apply String.eqb_refl].
Qed.

Lemma newSessionsOf_In (known : list string) (sessions : list Session)
      (sessionId : string) :
  In sessionId (map id (newSessionsOf known sessions)) ->
  In sessionId (map id sessions) /\ ~ In sessionId known.
Proof.
  unfold newSessionsOf. rewrite !in_map_iff.
  intros (s & <- & Hs). apply filter_In in Hs as [Hin Hnew]. split.
  - now exists s.
  - intros Hknown. apply has_In in Hknown. now rewrite Hknown in Hnew.
Qed.

Lemma try_bind_normal {A B} (m : M A) (k : A -> M B)
      (handler : Thrown -> M B) st a st1 :
  m st = (Normal a, st1) ->
  try_catch (bind m k) handler st = try_catch (k a) handler st1.
Proof. intros E. unfold try_catch, bind. now rewrite E. Qed.

Lemma fetches_grown (calls old : list Call) :
  Forall not_fetch calls -> fetches (calls ++ old) = fetches old.
Proof.
  intros H. unfold fetches. rewrite filter_app.
  induction H as [|c calls Hc _ IH]; [reflexivity|].
  simpl. now rewrite Hc.
Qed.

Lemma session_calls_grown (calls old : list Call) :
  Forall not_session_call calls ->
  session_calls (calls ++ old) = session_calls old.
Proof.
  intros H. unfold session_calls. rewrite filter_app.
  induction H as [|c calls Hc _ IH]; [reflexivity|].
  simpl. now rewrite Hc.
Qed.

Section CycleSteps.

Variable env : Environment.
Hypothesis Hsdk : sdkInstance env = true.

(** A cycle over a listing that is not empty is the report of the counts
    and then [restOfCycle]. *)
Lemma cycle_decompose (st : State) (sessions : list Session) :
  getSessions env (history st) = Normal (Some sessions) ->
  sessions <> [] ->
  cycleBody env st
  = restOfCycle env st sessions (stateBeforeLoop env st sessions).
Proof.
  intros Hlist Hne. unfold cycleBody. rewrite Hsdk. cbn [negb].
  rewrite (bind_normal _ _ _ _ _ (addLog_eq _ _)).
  assert (Hcall :
    call GetSessions (getSessions env)
         (set_activityLogs (logged LogChecking st) st)
    = (Normal (Some sessions),
       record_call GetSessions (set_activityLogs (logged LogChecking st) st)))
    by (unfold call; cbn [history set_activityLogs]; now rewrite Hlist).
  rewrite (bind_normal _ _ _ _ _ Hcall).
  destruct sessions as [|session rest]; [contradiction|].
  assert (Hknown :
    getKnownSessions env
      (record_call GetSessions (set_activityLogs (logged LogChecking st) st))
    = (Normal (loadedKnown env st),
       record_call StorageGet
         (record_call GetSessions
            (set_activityLogs (logged LogChecking st) st)))).
  { unfold getKnownSessions, bind, loadedKnown.
    rewrite getStorage_eq, Hsdk.
    cbn [history record_call set_activityLogs].
    now destruct (storageGetError env (GetSessions :: history st)). }
  rewrite (bind_normal _ _ _ _ _ Hknown). cbv zeta.
  rewrite (bind_normal _ _ _ _ _ (addLog_eq _ _)).
  rewrite (bind_normal _ _ _ _ _ (updateCounts_eq _ _ _ _)).
  reflexivity.
Qed.

Lemma cycle_run (st : State) (sessions : list Session) :
  getSessions env (history st) = Normal (Some sessions) ->
  sessions <> [] ->
  snd (checkAndRenameReplayTabs env st)
  = snd (restOfCycle env st sessions (stateBeforeLoop env st sessions)).
Proof.
  intros Hlist Hne.
  destruct (cycle_writes env st sessions Hsdk Hlist Hne)
    as (value & st' & Ecycle & _).
  unfold checkAndRenameReplayTabs. rewrite (try_normal _ _ _ _ _ Ecycle).
  rewrite <- (cycle_decompose st sessions Hlist Hne), Ecycle. reflexivity.
Qed.

(** A cycle over an empty listing makes the one call for the listing. *)
Lemma cycle_empty_history (st : State) :
  getSessions env (history st) = Normal (Some []) ->
  history (snd (checkAndRenameReplayTabs env st)) = GetSessions :: history st.
Proof.
  intros Hlist. unfold checkAndRenameReplayTabs, cycleBody, try_catch.
  rewrite Hsdk. cbn [negb].
  rewrite (bind_normal _ _ _ _ _ (addLog_eq _ _)).
  unfold bind at 1, call. cbn [history set_activityLogs]. rewrite Hlist.
  rewrite (bind_normal _ _ _ _ _ (addLog_eq _ _)). reflexivity.
Qed.

Hypothesis Htoken : token_present env.

(** A turn of the loop sends the request for its session, once. *)
Lemma trySession_fetches (session : Session) (renamedCount : nat)
      (st : State) :
  fetches (history (snd (trySession env session renamedCount st)))
  = PostGraphql (id session) :: fetches (history st).
Proof.
  unfold trySession. rewrite processSession_afterDetails.
  rewrite (try_bind_normal _ _ _ _ _ _ (addLog_eq _ _)).
  assert (Hdetails :
    getSessionDetails env (id session)
      (set_activityLogs (logged (LogProcessing (id session)) st) st)
    = (Normal (answeredEntry env (history st) (id session)),
       record_call (PostGraphql (id session))
         (set_activityLogs (logged (LogProcessing (id session)) st) st)))
    by (rewrite getSessionDetails_eq, Hsdk;
        cbn [history set_activityLogs]; now rewrite Htoken).
  rewrite (try_bind_normal _ _ _ _ _ _ Hdetails).
  match goal with
  | |- context [try_catch ?m ?h ?s] =>
      destruct (grows_try not_fetch m h) with (st := s) as (calls & E & F)
  end.
  - apply afterDetails_grows; reflexivity.
  - intros e. apply grows_log_ret.
  - rewrite E, fetches_grown by assumption. reflexivity.
Qed.

Lemma forEachSession_fetches (newSessions : list Session) (renamedCount : nat)
      (st : State) :
  fetches (history (snd (forEachSession env newSessions renamedCount st)))
  = (rev (map (fun session => PostGraphql (id session)) newSessions)
     ++ fetches (history st))%list.
Proof.
  revert renamedCount st.
  induction newSessions as [|session rest IH]; intros renamedCount st;
    [reflexivity|].
  cbn [forEachSession map rev].
  destruct (trySession_total env session renamedCount st) as (n & st1 & E).
  rewrite (bind_normal _ _ _ _ _ E), IH.
  pose proof (trySession_fetches session renamedCount st) as Hf.
  rewrite E in Hf. cbn [snd] in Hf. rewrite Hf, <- app_assoc. reflexivity.
Qed.

End CycleSteps.

Lemma cycle_end_no_write_fetch (env : Environment)
      (size renamedCount total : nat) :
  grows not_fetch
    (addLog (LogSaved size) ;;
     (if Nat.ltb 0 renamedCount
      then addLog (LogRenamedCount renamedCount) else ret tt) ;;
     finalKnown <- getKnownSessions env ;;
     updateCounts total (List.length finalKnown) 0).
Proof.
  apply grows_bind; [apply grows_addLog|]. intros _.
  apply grows_bind;
    [destruct (Nat.ltb 0 renamedCount); [apply grows_addLog | apply grows_ret]|].
  intros _. apply grows_bind; [now apply getKnownSessions_grows|].
  intros finalKnown. apply grows_updateCounts.
Qed.

Lemma cycle_without_sdk (env : Environment) (st : State) :
  sdkInstance env = false ->
  checkAndRenameReplayTabs env st
  = (Normal tt, set_activityLogs (logged LogSdkNotAvailable st) st).
Proof.
  intros Hsdk. unfold checkAndRenameReplayTabs, cycleBody. rewrite Hsdk.
  cbn [negb]. apply try_normal, addLog_eq.
Qed.

(** X16: a cycle only looks up and renames sessions that are new: every
    request for details and every rename it adds to the history is for
    the id of a listed session that is not in the known set the cycle
    loaded, so, when the storage could be read, not among the known ids
    in the storage. *)
Theorem known_sessions_not_processed (env : Environment) (st : State)
        (sessions : list Session) :
  getSessions env (history st) = Normal (Some sessions) ->
  exists calls,
    history (snd (checkAndRenameReplayTabs env st))
    = (calls ++ history st)%list
    /\ forall sessionId,
         In (PostGraphql sessionId) calls
         \/ (exists newName, In (RenameSession sessionId newName) calls) ->
         In sessionId (map id sessions)
         /\ ~ In sessionId (loadedKnown env st)
         /\ (storageGetError env (GetSessions :: history st) = None ->
             ~ In sessionId (persistedKnown st)).
Proof.
  intros Hlist.
  assert (Hconcerns :
    exists calls,
      history (snd (checkAndRenameReplayTabs env st))
      = (calls ++ history st)%list
      /\ Forall (concerns (map id (newSessionsOf (loadedKnown env st)
                                                  sessions))) calls).
  { destruct (sdkInstance env) eqn:Hsdk;
      [|rewrite (cycle_without_sdk env st Hsdk); now exists []].
    destruct sessions as [|session rest].
    - rewrite (cycle_empty_history env Hsdk st Hlist).
      exists [GetSessions]. split; [reflexivity | now repeat constructor].
    - rewrite (cycle_run env Hsdk st (session :: rest) Hlist)
        by discriminate.
      assert (Hnew :
        Forall (allowed_calls
                  (concerns (map id (newSessionsOf (loadedKnown env st)
                                                   (session :: rest)))))
               (newSessionsOf (loadedKnown env st) (session :: rest))).
      { apply Forall_forall. intros s Hs.
        split; [|intros newName _]; cbn [concerns]; now apply in_map. }
      destruct (restOfCycle_grows env _ (fun _ _ _ => I) I (fun _ => I)
                  st (session :: rest) Hnew
                  (stateBeforeLoop env st (session :: rest)))
        as (calls & E & F).
      exists (calls ++ [StorageGet; GetSessions])%list.
      rewrite E, <- app_assoc. split; [reflexivity|].
      apply Forall_app. split; [exact F | now repeat constructor]. }
  destruct Hconcerns as (calls & E & F). exists calls. split; [exact E|].
  rewrite Forall_forall in F.
  assert (Hin : forall sessionId,
    In (PostGraphql sessionId) calls
    \/ (exists newName, In (RenameSession sessionId newName) calls) ->
    In sessionId (map id (newSessionsOf (loadedKnown env st) sessions))).
  { intros sessionId [H|(newName & H)]; exact (F _ H). }
  intros sessionId Hcall.
  destruct (newSessionsOf_In _ _ _ (Hin sessionId Hcall)) as [Hlisted Hnew].
  repeat split; try assumption.
  intros Hread Hknown. apply Hnew. unfold loadedKnown. rewrite Hread.
  now apply new_Set_In.
Qed.

Lemma known_sessions_not_processed_witness :
  exists calls,
    history (snd (checkAndRenameReplayTabs env_scenario state_knowing_a))
    = (calls ++ history state_knowing_a)%list
    /\ forall sessionId,
         In (PostGraphql sessionId) calls
         \/ (exists newName, In (RenameSession sessionId newName) calls) ->
         In sessionId (map id [session_a])
         /\ ~ In sessionId (loadedKnown env_scenario state_knowing_a)
         /\ (storageGetError env_scenario
               (GetSessions :: history state_knowing_a) = None ->
             ~ In sessionId (persistedKnown state_knowing_a)).
Proof.
  exact (known_sessions_not_processed env_scenario state_knowing_a
           [session_a] eq_refl).
Defined.



Lemma loadedKnown_read (env : Environment) (st : State) :
  reads_work env -> loadedKnown env st = new_Set (persistedKnown st).
Proof. intros Hread. unfold loadedKnown. now rewrite Hread. Qed.

Lemma new_Set_idempotent (l : list string) : new_Set (new_Set l) = new_Set l.
Proof. apply new_Set_of_NoDup, new_Set_NoDup. Qed.





Lemma newSessionsOf_all_known (known : list string) (sessions : list Session) :
  (forall session, In session sessions -> In (id session) known) ->
  newSessionsOf known sessions = [].
Proof.
  intros H. unfold newSessionsOf.
  induction sessions as [|s rest IH]; [reflexivity|]. cbn [filter].
  assert (Hs : has known (id s) = true) by (apply has_In, H; now left).
  rewrite Hs. cbn [negb]. apply IH. intros x Hx. apply H. now right.
Qed.

(** A cycle over sessions that are all known is about no session. *)
Lemma all_known_idle (env : Environment) (st : State)
      (sessions : list Session) :
  sdkInstance env = true -> reads_work env ->
  getSessions env (history st) = Normal (Some sessions) ->
  sessions <> [] ->
  (forall session, In session sessions -> In (id session) (persistedKnown st)) ->
  session_calls (history (snd (checkAndRenameReplayTabs env st)))
  = session_calls (history st).
Proof.
  intros Hsdk Hread Hlist Hne Hknown.
  rewrite (cycle_run env Hsdk st sessions Hlist Hne).
  unfold restOfCycle. cbv zeta.
  rewrite (loadedKnown_read env st Hread), newSessionsOf_all_known
    by (intros s Hs; apply new_Set_In; now apply Hknown).
  cbn [List.length Nat.eqb].
  assert (Hrest : forall ids,
    grows not_session_call
      (addLog LogNoNewSessions ;; saveKnownSessions env ids)).
  { intros ids. apply grows_bind; [apply grows_addLog|]. intros _.
    now apply saveKnownSessions_grows. }
  destruct (Hrest (new_Set (map id sessions))
              (stateBeforeLoop env st sessions)) as (calls & E & F).
  rewrite E, session_calls_grown by assumption. reflexivity.
Qed.



(** ** Turns of the loop that fail *)

Section Turn.

Variable env : Environment.
Variable session : Session.
Variable renamedCount : nat.
Variables st st1 : State.
Variable entry : Entry.

Hypothesis Hdetails :
  getSessionDetails env (id session)
    (snd (addLog (LogProcessing (id session)) st))
  = (Normal (Some entry), st1).

Lemma turn_after_details (handler : Thrown -> M nat) :
  try_catch (processSession env session renamedCount) handler st
  = try_catch (afterDetails env session renamedCount (Some entry)) handler st1.
Proof.
  rewrite processSession_afterDetails.
  rewrite (try_bind_normal _ _ _ _ _ _ (addLog_eq _ _)).
  rewrite addLog_eq in Hdetails. cbn [snd] in Hdetails.
  now rewrite (try_bind_normal _ _ _ _ _ _ Hdetails).
Qed.

Lemma turn_undecodable (error : Thrown) :
  raw entry = RawInvalid error ->
  trySession env session renamedCount st
  = (Normal renamedCount,
     set_activityLogs (logged (LogSessionError (id session) error) st1) st1).
Proof.
  intros Hraw. unfold trySession. rewrite turn_after_details.
  unfold afterDetails. rewrite Hraw. cbv iota. unfold atob.
  unfold try_catch, bind at 1, throw.
  now rewrite (bind_normal _ _ _ _ _ (addLog_eq _ _)).
Qed.

Lemma turn_unparseable (decoded : string) :
  raw entry = RawBase64 decoded ->
  parseRawRequest decoded = None ->
  trySession env session renamedCount st
  = (Normal renamedCount,
     set_activityLogs (logged (LogCannotParse (id session)) st1) st1).
Proof.
  intros Hraw Hparse. unfold trySession. rewrite turn_after_details.
  unfold afterDetails. rewrite Hraw. cbv iota. unfold atob.
  apply try_normal.
  rewrite (bind_normal _ _ st1 decoded st1 eq_refl), Hparse.
  now rewrite (bind_normal _ _ _ _ _ (addLog_eq _ _)).
Qed.

Variable decoded : string.
Variable requestInfo : ParsedRequest.
Variable newName : string.
Variable st2 : State.

Hypothesis Hraw : raw entry = RawBase64 decoded.
Hypothesis Hparse : parseRawRequest decoded = Some requestInfo.
Hypothesis Hname :
  generateTabName env (method requestInfo) (path requestInfo) None st1
  = (Normal newName, st2).
Hypothesis Hdiffers : currentNameOf entry session <> newName.

Lemma turn_rename_outcome :
  trySession env session renamedCount st
  = match renameSession env (history st2) (id session) newName with
    | Normal _ =>
        (Normal (S renamedCount),
         set_activityLogs
           (logged (LogRequest (method requestInfo) (host requestInfo)
                               (path requestInfo))
              (set_activityLogs
                 (logged (LogRenamed (id session) newName)
                    (record_call (RenameSession (id session) newName) st2))
                 (record_call (RenameSession (id session) newName) st2)))
           (set_activityLogs
              (logged (LogRenamed (id session) newName)
                 (record_call (RenameSession (id session) newName) st2))
              (record_call (RenameSession (id session) newName) st2)))
    | Throw error =>
        (Normal renamedCount,
         set_activityLogs
           (logged (LogSessionError (id session) error)
              (record_call (RenameSession (id session) newName) st2))
           (record_call (RenameSession (id session) newName) st2))
    end.
Proof.
  unfold trySession. rewrite turn_after_details.
  unfold afterDetails. rewrite Hraw. cbv iota. unfold atob.
  apply String.eqb_neq in Hdiffers.
  rewrite (try_bind_normal _ _ _ st1 decoded st1 eq_refl), Hparse.
  rewrite (try_bind_normal _ _ _ _ _ _ Hname), Hdiffers.
  unfold try_catch, bind at 1, call.
  destruct (renameSession env (history st2) (id session) newName) as [[]|error].
  - rewrite (bind_normal _ _ _ _ _ (addLog_eq _ _)).
    now rewrite (bind_normal _ _ _ _ _ (addLog_eq _ _)).
  - now rewrite (bind_normal _ _ _ _ _ (addLog_eq _ _)).
Qed.

End Turn.

(** X21: in a turn of the loop where the details are found, the payload
    parses and the generated name differs from the current one, the
    rename API is called once with that name.  When the call succeeds
    the counter of renamed sessions grows by one and the turn logs the
    rename and the request; when it throws, the counter stays, the error
    is logged for that session, and the turn ends normally, so that the
    loop goes on. *)
Theorem rename_outcome (env : Environment) (session : Session)
        (renamedCount : nat) (st st1 st2 : State) (entry : Entry)
        (decoded : string) (requestInfo : ParsedRequest) (newName : string) :
  getSessionDetails env (id session)
    (snd (addLog (LogProcessing (id session)) st))
  = (Normal (Some entry), st1) ->
  raw entry = RawBase64 decoded ->
  parseRawRequest decoded = Some requestInfo ->
  generateTabName env (method requestInfo) (path requestInfo) None st1
  = (Normal newName, st2) ->
  currentNameOf entry session <> newName ->
  let st' := snd (trySession env session renamedCount st) in
  history st' = RenameSession (id session) newName :: history st2
  /\ (renameSession env (history st2) (id session) newName = Normal tt ->
      fst (trySession env session renamedCount st) = Normal (S renamedCount)
      /\ activityLogs st'
         = if logsEnabled st2
           then firstn 50
                  (LogRequest (method requestInfo) (host requestInfo)
                              (path requestInfo)
                   :: LogRenamed (id session) newName :: activityLogs st2)
           else activityLogs st2)
  /\ (forall error,
        renameSession env (history st2) (id session) newName = Throw error ->
        fst (trySession env session renamedCount st) = Normal renamedCount
        /\ activityLogs st'
           = if logsEnabled st2
             then firstn 50
                    (LogSessionError (id session) error :: activityLogs st2)
             else activityLogs st2).
Proof.
  intros Hdetails Hraw Hparse Hname Hdiffers. cbv zeta.
  rewrite (turn_rename_outcome env session renamedCount st st1 entry Hdetails
             decoded requestInfo newName st2 Hraw Hparse Hname Hdiffers).
  split; [now destruct (renameSession env _ _ _)|]. split.
  - intros ->. split; [reflexivity|].
    cbn [snd activityLogs set_activityLogs].
    exact (logged_twice _ _ (record_call _ st2)).
  - intros error ->. now split.
Qed.

Lemma rename_outcome_witness :
  fst (trySession env_rename_fails session_a 0 freshState) = Normal 0
  /\ hd_error (activityLogs (snd (trySession env_rename_fails session_a 0
                                    freshState)))
     = Some (LogSessionError "a" (ThrownError "rename refused")).
Proof.
  destruct (rename_outcome env_rename_fails session_a 0 freshState
              (snd (getSessionDetails env_rename_fails "a"
                      (snd (addLog (LogProcessing "a") freshState))))
              (snd (getSessionDetails env_rename_fails "a"
                      (snd (addLog (LogProcessing "a") freshState))))
              (mkEntry (RawBase64 request_foo) (Some "old"))
              request_foo (mkParsedRequest "GET" "/foo/bar?x=1" "h.test")
              "GET /foo/bar" eq_refl eq_refl eq_refl eq_refl)
    as (_ & _ & Hfail); [discriminate|].
  destruct (Hfail (ThrownError "rename refused") eq_refl) as [Hcount Hlogs].
  split; [exact Hcount | now rewrite Hlogs].
Defined.

(** X22: in a turn of the loop where the details are found but the payload
    cannot be decoded, or decodes to a text the parser refuses, the turn
    ends normally with the counter of renamed sessions unchanged, makes
    no call after the lookup, so runs no user code and renames nothing,
    and logs for that session the exception the decoding threw, or the
    parse failure. *)
Theorem bad_payload_skipped (env : Environment) (session : Session)
        (renamedCount : nat) (st st1 : State) (entry : Entry) :
  getSessionDetails env (id session)
    (snd (addLog (LogProcessing (id session)) st))
  = (Normal (Some entry), st1) ->
  let st' := snd (trySession env session renamedCount st) in
  (forall error,
     raw entry = RawInvalid error ->
     fst (trySession env session renamedCount st) = Normal renamedCount
     /\ history st' = history st1
     /\ activityLogs st' = logged (LogSessionError (id session) error) st1)
  /\ (forall decoded,
        raw entry = RawBase64 decoded ->
        parseRawRequest decoded = None ->
        fst (trySession env session renamedCount st) = Normal renamedCount
        /\ history st' = history st1
        /\ activityLogs st' = logged (LogCannotParse (id session)) st1).
Proof.
  intros Hdetails. cbv zeta. split.
  - intros error Hraw.
    now rewrite (turn_undecodable env session renamedCount st st1 entry
                   Hdetails error Hraw).
  - intros decoded Hraw Hparse.
    now rewrite (turn_unparseable env session renamedCount st st1 entry
                   Hdetails decoded Hraw Hparse).
Qed.

Lemma bad_payload_skipped_witness :
  fst (trySession env_garbage_payload session_a 0 freshState) = Normal 0
  /\ activityLogs (snd (trySession env_garbage_payload session_a 0 freshState))
     = [LogCannotParse "a"; LogProcessing "a"].
Proof.
  destruct (proj2 (bad_payload_skipped env_garbage_payload session_a 0
                     freshState
                     (snd (getSessionDetails env_garbage_payload "a"
                             (snd (addLog (LogProcessing "a") freshState))))
                     (mkEntry (RawBase64 "garbage") (Some "old")) eq_refl)
                  "garbage" eq_refl eq_refl)
    as (Hcount & _ & Hlogs).
  split; [exact Hcount | now rewrite Hlogs].
Defined.

(** ** The stand-alone variant, further *)

Lemma standalone_addLog_eq (logContainer : bool) (message : LogMessage)
      (st : State) :
  Standalone.addLog logContainer message st
  = if logContainer then addLog message st else (Normal tt, st).
Proof.
  unfold Standalone.addLog, addLog.
  now destruct (logsEnabled st), logContainer.
Qed.

Lemma standalone_generateTabName_throw (env : Environment)
      (logContainer : bool) (nullishTypeError : Thrown)
      (method path : string) (host : option string) (st : State)
      (error : UserThrown) :
  truthy (trim (namingFunction st)) = true ->
  userFunction env (history st) (namingFunction st) method path
               (host_or_empty host) = Throw error ->
  Standalone.generateTabName env logContainer nullishTypeError method path
                             host st
  = let st1 :=
      record_call (RunUserFunction (namingFunction st) method path
                                   (host_or_empty host)) st in
    match Standalone.messageOf nullishTypeError error with
    | Normal message =>
        (Normal (defaultTabName method path),
         if logContainer then
           set_activityLogs
             (logged LogUsingDefault
                (set_activityLogs
                   (logged (LogCustomFunctionError message) st1) st1))
             (set_activityLogs
                (logged (LogCustomFunctionError message) st1) st1)
         else st1)
    | Throw typeError => (Throw typeError, st1)
    end.
Proof.
  intros Hsource Hthrow.
  unfold Standalone.generateTabName, bind at 1, try_catch, tryCustomFunction.
  rewrite Hsource. unfold bind at 1, call. rewrite Hthrow. cbv zeta.
  destruct (Standalone.messageOf nullishTypeError error)
    as [message|typeError]; [|reflexivity].
  unfold bind. rewrite standalone_addLog_eq.
  destruct logContainer.
  - rewrite addLog_eq, standalone_addLog_eq. now rewrite addLog_eq.
  - now rewrite standalone_addLog_eq.
Qed.

(** X23: in the stand-alone variant the [catch] block of the generator
    reads the message of whatever was thrown and puts it in a template
    literal: when the custom source throws [null] or [undefined], or a
    value whose message cannot be converted to a string, as a [Symbol]
    cannot, the generator throws the error of that step in its turn and
    logs nothing; when it throws any other value the generator returns
    the default name and calls [addLog] with the message and with the
    fallback notice, which come on top of the log when logs are enabled
    and the log container is in the document, and leave the log as it is
    otherwise. *)
Theorem standalone_generator_catch (env : Environment) (logContainer : bool)
        (nullishTypeError : Thrown) (method path : string)
        (host : option string) (st : State) (error : UserThrown) :
  truthy (trim (namingFunction st)) = true ->
  userFunction env (history st) (namingFunction st) method path
               (host_or_empty host) = Throw error ->
  let result :=
    Standalone.generateTabName env logContainer nullishTypeError method path
                               host st in
  match error with
  | UserNullish =>
      fst result = Throw nullishTypeError
      /\ activityLogs (snd result) = activityLogs st
  | UserError (Unconvertible typeError) | UserValue (Unconvertible typeError) =>
      fst result = Throw typeError
      /\ activityLogs (snd result) = activityLogs st
  | UserError (Text message) | UserValue (Text message) =>
      fst result = Normal (defaultTabName method path)
      /\ activityLogs (snd result)
         = if logsEnabled st && logContainer
           then firstn 50 (LogUsingDefault :: LogCustomFunctionError message
                           :: activityLogs st)
           else activityLogs st
  end.
Proof.
  intros Hsource Hthrow. cbv zeta.
  rewrite (standalone_generateTabName_throw env logContainer nullishTypeError
             method path host st error Hsource Hthrow).
  cbv zeta.
  destruct error as [[message|typeError]| |[message|typeError]];
    cbn [Standalone.messageOf templateText]; (split; [reflexivity|]);
    try reflexivity;
    (destruct logContainer;
     [|cbn [snd record_call activityLogs]; now rewrite andb_false_r]);
    cbn [snd activityLogs set_activityLogs]; rewrite andb_true_r;
    exact (logged_twice _ LogUsingDefault (record_call _ st)).
Qed.

Lemma standalone_generator_catch_witness :
  fst (Standalone.generateTabName env_throwing_null true
         (ThrownError "null has no properties") "GET" "/foo" None
         state_throw_null)
  = Throw (ThrownError "null has no properties").
Proof.
  exact (proj1 (standalone_generator_catch env_throwing_null true
                  (ThrownError "null has no properties") "GET" "/foo" None
                  state_throw_null UserNullish eq_refl eq_refl)).
Defined.

Lemma standalone_getSessionDetails_eq (env : Environment)
      (sessionId : string) (st : State) :
  Standalone.getSessionDetails env sessionId st
  = if has_token env (history st) then
      (Normal match fetch env (history st) sessionId with
              | Normal response =>
                  match json response with
                  | BodyData activeEntry => activeEntry
                  | BodyMalformed => None
                  end
              | Throw _ => None
              end,
       record_call (PostGraphql sessionId) st)
    else (Normal None, st).
Proof.
  unfold Standalone.getSessionDetails, try_catch, bind, read_accessToken,
    call, has_token, ret, throw.
  destruct (authentication env (history st)) as [token|]; [|reflexivity].
  destruct (truthy token); [|reflexivity].
  destruct (fetch env (history st) sessionId) as [[isOk body]|error];
    [|reflexivity].
  now destruct body.
Qed.

(** X24: in the stand-alone variant the lookup of the details never throws
    and has no fallback entry: without a token it sends no request and
    gives no entry; a request that throws and a malformed body give no
    entry; any other response gives the active entry of its body, whether
    the response is OK or not. *)
Theorem standalone_details (env : Environment) (sessionId : string)
        (st : State) :
  let result := Standalone.getSessionDetails env sessionId st in
  (has_token env (history st) = false -> result = (Normal None, st))
  /\ (has_token env (history st) = true ->
      result
      = (Normal match fetch env (history st) sessionId with
                | Normal response =>
                    match json response with
                    | BodyData activeEntry => activeEntry
                    | BodyMalformed => None
                    end
                | Throw _ => None
                end,
         record_call (PostGraphql sessionId) st)).
Proof.
  cbv zeta. rewrite standalone_getSessionDetails_eq.
  split; intros ->; reflexivity.
Qed.

Lemma standalone_details_witness :
  Standalone.getSessionDetails env_fetch_fails "a" freshState
  = (Normal None, record_call (PostGraphql "a") freshState).
Proof.
  exact (proj2 (standalone_details env_fetch_fails "a" freshState) eq_refl).
Defined.

(** ** Instances *)

Lemma default_name_bounded_witness :
  String.length (defaultTabName "OPTIONS" long_path) <= 30.
Proof.
  apply (proj2 (proj2 (default_name_bounded "OPTIONS" long_path))).
  simpl. lia.
Defined.

Lemma renames_are_named_witness : "GET /foo/bar" <> "".
Proof.
  destruct (renames_are_named env_scenario freshState) as (calls & E & _ & H).
  apply (H "a" "GET /foo/bar").
  change (history freshState) with (@nil Call) in E.
  rewrite app_nil_r in E. rewrite <- E. vm_compute. auto.
Defined.
